(** * Dartmouth model grid: band aliases, track-file loading, grid
      aggregation and cache file naming

    A shallow embedding of [isochrones/dartmouth/grid.py],
    [isochrones/dartmouth/tri.py] and of the persistence check of
    [isochrones/tests/test_fits.py], with the properties the specification
    states about them.

    Conventions of the embedding.
    - A Python [str] is a [string] of 8-bit characters (the code base is
      Python 2: [tri.py] uses the print statement), so [\d] is ['0'..'9'],
      [\s] is the six ASCII white-space characters and [[a-zA-Z]] the 52
      ASCII letters.
    - A call that may raise returns a [result]; the exception is a value of
      [exn].
    - Regular expressions are run by a small backtracking matcher with the
      semantics of Python's [re] on the fragment the sources use (literals,
      character classes, greedy [*] and [+] on a class, groups,
      concatenation). *)

From Stdlib Require Import String Ascii List Bool Arith ZArith QArith Qabs Lia.
From Stdlib Require Import DecimalString.
From Stdlib Require Import Permutation Sorted.
From Stdlib Require Import Reals Lra.
Import ListNotations.

Open Scope list_scope.
Open Scope string_scope.

Set Implicit Arguments.

(** ** Exceptions and results *)

Inductive exn : Type :=
| ValueError (msg : string)
| RuntimeError
| IndexError
| KeyError (key : string)
| UnboundLocalError (var : string)
| AssertionError
| IOError (msg : string)
| QhullError.

Inductive result (A : Type) : Type :=
| Ok (a : A)
| Raise (e : exn).

Arguments Ok {A} a.
Arguments Raise {A} e.

Definition bind {A B : Type} (r : result A) (k : A -> result B) : result B :=
  match r with
  | Ok a => k a
  | Raise e => Raise e
  end.

Notation "x <- r ;; k" := (bind r (fun x => k))
  (at level 61, r at next level, right associativity).

Definition is_ok {A : Type} (r : result A) : bool :=
  match r with Ok _ => true | Raise _ => false end.

(** ** Strings *)

(** [x in [a, b, ...]] on strings. *)
Definition py_in (x : string) (l : list string) : bool :=
  existsb (String.eqb x) l.

(** [template.format( *args )] for templates whose only fields are the
    automatically numbered [{}]; surplus arguments are ignored, a missing
    one raises [IndexError], as in Python. *)
Fixpoint format (t : string) (args : list string) : result string :=
  match t with
  | EmptyString => Ok EmptyString
  | String c t1 =>
      if Ascii.eqb c "{" then
        match t1 with
        | String d t2 =>
            if Ascii.eqb d "}" then
              match args with
              | [] => Raise IndexError
              | a :: args' => r <- format t2 args' ;; Ok (a ++ r)
              end
            else r <- format t1 args ;; Ok (String c r)
        | EmptyString => Ok (String c EmptyString)
        end
      else r <- format t1 args ;; Ok (String c r)
  end.

(** Every character of [s] is in the class [f]. *)
Fixpoint string_forallb (f : ascii -> bool) (s : string) : bool :=
  match s with
  | EmptyString => true
  | String c s' => (f c && string_forallb f s')%bool
  end.

(** [os.path.join a b] of [posixpath], for two components. *)
Definition ends_with_slash (a : string) : bool :=
  match rev (list_ascii_of_string a) with
  | c :: _ => Ascii.eqb c "/"
  | [] => false
  end.

Definition starts_with_slash (b : string) : bool :=
  match b with
  | String c _ => Ascii.eqb c "/"
  | EmptyString => false
  end.

Definition os_path_join (a b : string) : string :=
  if starts_with_slash b then b
  else if (String.eqb a "" || ends_with_slash a)%bool then a ++ b
  else a ++ "/" ++ b.

(** ** Character classes *)

Definition in_range (lo hi c : ascii) : bool :=
  ((nat_of_ascii lo <=? nat_of_ascii c) && (nat_of_ascii c <=? nat_of_ascii hi))%nat%bool.

Definition is_digit (c : ascii) : bool := in_range "0" "9" c.
Definition is_alpha (c : ascii) : bool := (in_range "a" "z" c || in_range "A" "Z" c)%bool.
Definition is_alpha_us (c : ascii) : bool := (is_alpha c || Ascii.eqb c "_")%bool.
Definition is_alnum (c : ascii) : bool := (is_alpha c || is_digit c)%bool.
Definition is_alnum_us (c : ascii) : bool := (is_alpha c || Ascii.eqb c "_" || is_digit c)%bool.
Definition is_mp (c : ascii) : bool := (Ascii.eqb c "m" || Ascii.eqb c "p")%bool.

(** [\s]: space, [\t], [\n], [\v], [\f], [\r]. *)
Definition is_space (c : ascii) : bool :=
  (Ascii.eqb c " " || in_range (ascii_of_nat 9) (ascii_of_nat 13) c)%bool.

(** ** Regular expressions *)

Module Re.

Inductive regex : Type :=
| Lit (c : ascii)                 (* the character [c] *)
| Cls (f : ascii -> bool)         (* one character of a class *)
| Star (f : ascii -> bool)        (* [class*], greedy *)
| Plus (f : ascii -> bool)        (* [class+], greedy *)
| Seq (r1 r2 : regex)             (* [r1 r2] *)
| Group (r : regex)               (* [(r)] *)
| Eps.

(** The literal text [s]. *)
Fixpoint Str (s : string) : regex :=
  match s with
  | EmptyString => Eps
  | String c s' => Seq (Lit c) (Str s')
  end.

Record match_obj : Type := MatchObj
  { whole : string;             (* [m.group(0)] *)
    groups : list string }.     (* [m.groups()], by opening parenthesis *)

(** [m.group(i)]; every group of the patterns below takes part in every
    match, so the default is never returned. *)
Definition group (m : match_obj) (i : nat) : string :=
  match i with
  | O => whole m
  | S j => nth j (groups m) ""
  end.

Section Matcher.
Variable A : Type.

(** The continuation receives the text matched, the rest of the subject
    and the groups closed while matching. *)
Definition cont : Type := string -> string -> list string -> option A.

(** Greedy repetition of a class: take a character when possible and
    come back to the shorter match only when the rest of the pattern
    fails on the longer one. [acc] is the text taken so far. *)
Fixpoint greedy (f : ascii -> bool) (k : cont) (acc s : string) : option A :=
  match s with
  | String c s' =>
      if f c then
        match greedy f k (acc ++ String c "") s' with
        | Some a => Some a
        | None => k acc s []
        end
      else k acc s []
  | EmptyString => k acc s []
  end.

Fixpoint run (r : regex) (s : string) (k : cont) : option A :=
  match r with
  | Lit c =>
      match s with
      | String d s' => if Ascii.eqb d c then k (String d "") s' [] else None
      | EmptyString => None
      end
  | Cls f =>
      match s with
      | String d s' => if f d then k (String d "") s' [] else None
      | EmptyString => None
      end
  | Star f => greedy f k "" s
  | Plus f =>
      match s with
      | String d s' => if f d then greedy f k (String d "") s' else None
      | EmptyString => None
      end
  | Seq r1 r2 =>
      run r1 s (fun t1 s1 g1 =>
      run r2 s1 (fun t2 s2 g2 => k (t1 ++ t2) s2 (g1 ++ g2)%list))
  | Group r1 => run r1 s (fun t s1 g => k t s1 (t :: g))
  | Eps => k "" s []
  end.
End Matcher.

(** What a pattern may match: [Matches r t g] when [r] matches exactly
    the text [t] and its groups then hold [g]. The matcher picks one of
    these matches, the one Python picks. *)
Inductive Matches : regex -> string -> list string -> Prop :=
| M_Lit c : Matches (Lit c) (String c "") []
| M_Cls f c : f c = true -> Matches (Cls f) (String c "") []
| M_Star f t : string_forallb f t = true -> Matches (Star f) t []
| M_Plus f c t :
    f c = true -> string_forallb f t = true -> Matches (Plus f) (String c t) []
| M_Seq r1 r2 t1 t2 g1 g2 :
    Matches r1 t1 g1 -> Matches r2 t2 g2 ->
    Matches (Seq r1 r2) (t1 ++ t2) (g1 ++ g2)%list
| M_Group r t g : Matches r t g -> Matches (Group r) t (t :: g)
| M_Eps : Matches Eps "" [].

(** [re.match(r, s)]: a match anchored at the start of [s]. *)
Definition re_match (r : regex) (s : string) : option match_obj :=
  run r s (fun t _ g => Some (MatchObj t g)).

(** [re.search(r, s)]: the match at the leftmost position that has one. *)
Fixpoint re_search (r : regex) (s : string) : option match_obj :=
  match re_match r s with
  | Some m => Some m
  | None =>
      match s with
      | String _ s' => re_search r s'
      | EmptyString => None
      end
  end.

End Re.

Import Re.

(** ** [DartmouthModelGrid] : class attributes *)

Definition phot_systems : list string :=
  ["SDSSugriz"; "UBVRIJHKsKp"; "WISE"; "LSST"; "UKIDSS"; "HST_WFPC2"].

Definition phot_bands (phot : string) : option (list string) :=
  if phot =? "SDSSugriz" then Some ["sdss_z"; "sdss_i"; "sdss_r"; "sdss_u"; "sdss_g"]
  else if phot =? "UBVRIJHKsKp" then Some ["B"; "I"; "H"; "J"; "Ks"; "R"; "U"; "V"; "D51"; "Kp"]
  else if phot =? "WISE" then Some ["W4"; "W3"; "W2"; "W1"]
  else if phot =? "LSST" then Some ["LSST_r"; "LSST_u"; "LSST_y"; "LSST_z"; "LSST_g"; "LSST_i"]
  else if phot =? "UKIDSS" then Some ["Y"; "H"; "K"; "J"; "Z"]
  else if phot =? "HST_WFPC2" then Some ["WFPC2_F555W"; "WFPC2_F606W"; "WFPC2_F814W"]
  else None.

(** ** [get_band] *)

(** ['([a-zA-Z]+)_([a-zA-Z_]+)'] *)
Definition re_system_band : regex :=
  Seq (Group (Plus is_alpha)) (Seq (Lit "_") (Group (Plus is_alpha_us))).

(** ['HST_([a-zA-Z\d]+)_([a-zA-Z_\d]+)'] *)
Definition re_hst_band : regex :=
  Seq (Str "HST_")
      (Seq (Group (Plus is_alnum)) (Seq (Lit "_") (Group (Plus is_alnum_us)))).

(** The two local variables of [get_band]: [phot] starts as [None], [band]
    starts unbound. [None] in the second component is "unbound". *)
Definition band_vars : Type := (option string * option string)%type.

Definition get_band_regex (b : string) : result band_vars :=
  let m := re_match re_system_band b in
  let m2 := re_match re_hst_band b in
  let st : band_vars :=
    match m with
    | Some m =>
        if py_in (group m 1) phot_systems then
          let phot := group m 1 in
          if phot =? "LSST" then (Some phot, Some b)
          else (Some phot, Some (group m 2))
        else if py_in (group m 1) ["UK"; "UKIRT"] then
          (Some "UKIDSS", Some (group m 2))
        else (None, None)
    | None => (None, None)
    end in
  match m2 with
  | Some m2 =>
      _phot <- format "HST_{}" [group m2 1] ;;
      _band <- format "{}_{}" [group m2 1; group m2 2] ;;
      if py_in _phot phot_systems then Ok (Some _phot, Some _band)
      else Ok st
  | None => Ok st
  end.

Definition get_band_vars (b : string) : result band_vars :=
  if py_in b ["u"; "g"; "r"; "i"; "z"] then
    band <- format "sdss_{}" [b] ;; Ok (Some "SDSSugriz", Some band)
  else if py_in b ["U"; "B"; "V"; "R"; "I"; "J"; "H"; "Ks"] then
    Ok (Some "UBVRIJHKsKp", Some b)
  else if b =? "K" then
    Ok (Some "UBVRIJHKsKp", Some "Ks")
  else if py_in b ["kep"; "Kepler"; "Kp"] then
    Ok (Some "UBVRIJHKsKp", Some "Kp")
  else if py_in b ["W1"; "W2"; "W3"; "W4"] then
    Ok (Some "WISE", Some b)
  else if py_in b ["F555W"; "F606W"; "F814W"] then
    band <- format "WFPC2_{}" [b] ;; Ok (Some "HST_WFPC2", Some band)
  else if py_in b ["WFPC2_F555W"; "WFPC2_F606W"; "WFPC2_F814W"] then
    Ok (Some "HST_WFPC2", Some b)
  else get_band_regex b.

Definition get_band (b : string) : result (string * string) :=
  st <- get_band_vars b ;;
  match st with
  | (None, _) =>
      msg <- format "Dartmouth Models cannot resolve band {}!" [b] ;;
      Raise (ValueError msg)
  | (Some phot, Some band) => Ok (phot, band)
  | (Some _, None) => Raise (UnboundLocalError "band")
  end.


(** ** Numbers read from text *)

(** Floats are read from plain decimal numerals and then only divided by
    ten and negated; they are modelled by the exact rationals, in lowest
    terms, that the numerals denote (binary rounding is not modelled). *)

(** The longest prefix of [s] in the class [f], and the rest. *)
Fixpoint span (f : ascii -> bool) (s : string) : string * string :=
  match s with
  | EmptyString => (EmptyString, EmptyString)
  | String c s' =>
      if f c then let (p, r) := span f s' in (String c p, r)
      else (EmptyString, s)
  end.

Definition digit_value (c : ascii) : Z := Z.of_nat (nat_of_ascii c - 48).

Fixpoint decimal_from (acc : Z) (s : string) : Z :=
  match s with
  | EmptyString => acc
  | String c s' => decimal_from (10 * acc + digit_value c) s'
  end.

Definition decimal_value (s : string) : Z := decimal_from 0 s.

(** [float(s)] on the numerals the sources pass to it: digits, or digits
    with a decimal point. Anything else raises [ValueError] here (Python
    accepts further forms, which the patterns of the sources never
    produce). *)
Definition py_float (s : string) : result Q :=
  let (ip, rest) := span is_digit s in
  let bad := Raise (ValueError ("could not convert string to float: " ++ s)) in
  match rest with
  | EmptyString =>
      if ip =? "" then bad else Ok (inject_Z (decimal_value ip))
  | String c fp =>
      if (Ascii.eqb c "." && string_forallb is_digit fp
          && negb ((ip =? "") && (fp =? "")))%bool
      then Ok (Qred (decimal_value (ip ++ fp)
                     # Z.to_pos (10 ^ Z.of_nat (String.length fp))))
      else bad
  end.

(** ** [get_feh] *)

(** ['feh([mp])(\d+)afe'] *)
Definition re_feh : regex :=
  Seq (Str "feh") (Seq (Group (Cls is_mp)) (Seq (Group (Plus is_digit)) (Str "afe"))).

(** [None] is Python's [None], returned by falling off the end. *)
Definition get_feh (filename : string) : result (option Q) :=
  match re_search re_feh filename with
  | Some m =>
      let sign : Q := if group m 1 =? "p" then 1 else -1 in
      f <- py_float (group m 2) ;;
      Ok (Some (Qred (f / 10 * sign)))
  | None => Ok None
  end.

(** The sign a letter stands for. *)
Definition feh_sign (sg : ascii) : Q := if Ascii.eqb sg "p" then 1 else -1.

(** The pattern of [get_feh] at the start of [s]: [feh], the sign letter
    [sg], the digits [ds] (one at least), [afe]. *)
Definition feh_at (s : string) (sg : ascii) (ds : string) : Prop :=
  exists post,
    s = "feh" ++ String sg (ds ++ "afe" ++ post) /\
    is_mp sg = true /\ ds <> "" /\ string_forallb is_digit ds = true.

Definition has_feh (filename : string) : Prop :=
  exists pre s sg ds, filename = pre ++ s /\ feh_at s sg ds.

(** The pattern in the words of the specification: [feh], a sign letter
    and a magnitude of two digits; and [get_feh] read on that pattern. *)
Definition re_feh_two_digits : regex :=
  Seq (Str "feh")
      (Seq (Group (Cls is_mp)) (Group (Seq (Cls is_digit) (Cls is_digit)))).

Definition get_feh_two_digits (filename : string) : result (option Q) :=
  match re_search re_feh_two_digits filename with
  | Some m =>
      let sign : Q := if group m 1 =? "p" then 1 else -1 in
      f <- py_float (group m 2) ;;
      Ok (Some (Qred (f / 10 * sign)))
  | None => Ok None
  end.

(** ** [to_df] *)

(** ['#'], ['#AGE=\s*(\d+\.\d+)\s+'] and ['\d'] *)
Definition re_hash : regex := Lit "#".

Definition re_age : regex :=
  Seq (Str "#AGE=")
      (Seq (Star is_space)
           (Seq (Group (Seq (Plus is_digit) (Seq (Lit ".") (Plus is_digit))))
                (Plus is_space))).

Definition re_digit : regex := Cls is_digit.

(** The table [to_df] returns: the rows parsed by numpy (kept as the
    fields of each row), with the two columns the method adds. *)
Record track_df : Type := TrackDf
  { rec_rows : list (list string);
    age_column : list Q;
    feh_column : option Q }.

(** [ages[i] = v] on a numpy array: [IndexError] out of range. *)
Fixpoint setitem (l : list Q) (i : nat) (v : Q) : result (list Q) :=
  match l, i with
  | [], _ => Raise IndexError
  | _ :: l', O => Ok (v :: l')
  | x :: l', S j => l'' <- setitem l' j v ;; Ok (x :: l'')
  end.

(** The variables of the loop over the lines of the file. *)
Record age_state : Type := AgeState
  { ages : list Q;
    curage : Q;
    row : nat }.

Definition age_step (st : age_state) (line : string) : result age_state :=
  match re_match re_hash line with
  | Some _ =>
      match re_match re_age line with
      | Some m =>
          v <- py_float (group m 1) ;;
          Ok (AgeState (ages st) v (row st))
      | None => Ok st
      end
  | None =>
      match re_search re_digit line with
      | Some _ =>
          a <- setitem (ages st) (row st) (curage st) ;;
          Ok (AgeState a (curage st) (S (row st)))
      | None => Ok st
      end
  end.

Fixpoint age_loop (st : age_state) (lines : list string) : result age_state :=
  match lines with
  | [] => Ok st
  | line :: rest => st' <- age_step st line ;; age_loop st' rest
  end.

(** A program that prints: the lines written to the standard output, and
    the outcome. *)
Definition printing (A : Type) : Type := (list string * result A)%type.

Section ToDf.
(** [np.recfromtxt(filename, skip_header=8, names=True)] on the lines of
    the file: the rows of the table, or an exception. It belongs to
    numpy; the method is embedded over any such parser. *)
Variable recfromtxt : list string -> result (list (list string)).

(** [lines] is what iterating over [open(filename)] yields: each line
    with its terminator. [pd.DataFrame(rec)] has one row per parsed
    row. *)
Definition to_df (filename : string) (lines : list string) : printing track_df :=
  match recfromtxt lines with
  | Raise _ =>
      match format "Error reading {}!" [filename] with
      | Ok msg => ([msg], Raise RuntimeError)
      | Raise e => ([], Raise e)
      end
  | Ok rec =>
      let n := List.length rec in
      ([], st <- age_loop (AgeState (repeat 0%Q n) 0%Q 0) lines ;;
           feh <- get_feh filename ;;
           Ok (TrackDf rec (ages st) feh))
  end.
End ToDf.

(** *** The lines of a track file

    How the loop of [to_df] sorts the lines: a comment starts with [#]; a
    marker is a comment that matches the pattern of the age; a data line
    is a line with a digit that is not a comment. *)

Definition is_comment (line : string) : bool :=
  match re_match re_hash line with Some _ => true | None => false end.

Definition has_digit (line : string) : bool :=
  match re_search re_digit line with Some _ => true | None => false end.

Definition is_data_line (line : string) : bool :=
  (negb (is_comment line) && has_digit line)%bool.

(** The age a marker carries. *)
Definition marker_value (line : string) : option Q :=
  if is_comment line then
    match re_match re_age line with
    | Some m =>
        match py_float (group m 1) with
        | Ok v => Some v
        | Raise _ => None
        end
    | None => None
    end
  else None.

(** The number of data lines among [lines]: the index of the row of a
    data line that comes next. *)
Definition count_data (lines : list string) : nat :=
  List.length (filter is_data_line lines).

(** The age of the last marker among [lines], after [cur]. *)
Fixpoint last_marker (cur : option Q) (lines : list string) : option Q :=
  match lines with
  | [] => cur
  | line :: rest =>
      last_marker (match marker_value line with Some v => Some v | None => cur end) rest
  end.

(** The marker nearest to a line, given the lines before it. *)
Definition nearest_marker (before : list string) : option Q :=
  last_marker None before.

(** The value of [curage] after the lines [lines], from [cur]. *)
Fixpoint curage_after (cur : Q) (lines : list string) : Q :=
  match lines with
  | [] => cur
  | line :: rest =>
      curage_after (match marker_value line with Some v => v | None => cur end) rest
  end.

(** *** A parser for the examples

    The behaviour of [numpy.genfromtxt] that matters for [to_df], after
    numpy's documentation: the first [skip_header] lines are dropped; the
    names are the fields of the next line that has any, read after its
    comment mark; every later line is cut at the comment mark and split
    at white space, lines left without a field are skipped, and a row
    whose number of fields differs from the number of names is an error.
    A file without a line of names gives the empty table. *)

Fixpoint split_from (cur : string) (s : string) : list string :=
  match s with
  | EmptyString => if cur =? "" then [] else [cur]
  | String c s' =>
      if is_space c then
        if cur =? "" then split_from "" s' else cur :: split_from "" s'
      else split_from (cur ++ String c "") s'
  end.

(** [s.split()] *)
Definition split_ws (s : string) : list string := split_from "" s.

Definition not_hash (c : ascii) : bool := negb (Ascii.eqb c "#").

Definition np_split_line (line : string) : list string :=
  split_ws (fst (span not_hash line)).

Fixpoint remove_hashes (s : string) : string :=
  match s with
  | EmptyString => EmptyString
  | String c s' => if Ascii.eqb c "#" then remove_hashes s' else String c (remove_hashes s')
  end.

Definition np_names_of (line : string) : list string :=
  match snd (span not_hash line) with
  | String _ after => split_ws (remove_hashes after)
  | EmptyString => split_ws line
  end.

Fixpoint np_find_names (lines : list string) : option (list string * list string) :=
  match lines with
  | [] => None
  | line :: rest =>
      match np_names_of line with
      | [] => np_find_names rest
      | names => Some (names, rest)
      end
  end.

Definition np_recfromtxt (lines : list string) : result (list (list string)) :=
  match np_find_names (skipn 8 lines) with
  | None => Ok []
  | Some (names, body) =>
      let rows := filter (fun r => negb (Nat.eqb (List.length r) 0)) (map np_split_line body) in
      if forallb (fun r => Nat.eqb (List.length r) (List.length names)) rows
      then Ok rows
      else Raise (ValueError "Some errors were detected !")
  end.

(** The layout of a track file: eight lines of header and the line of
    the names, none of them a data line; then lines that are data lines
    exactly when numpy finds fields in them, with one field per name. *)
Definition has_fields (line : string) : bool :=
  negb (Nat.eqb (List.length (np_split_line line)) 0).

Record laid_out (header : list string) (names_line : string) (body : list string) : Prop :=
  { header_length : List.length header = 8%nat;
    header_no_data : forall l, In l header -> is_data_line l = false;
    names_no_data : is_data_line names_line = false;
    names_present : np_names_of names_line <> [];
    body_data : forall l, In l body -> is_data_line l = has_fields l;
    body_width : forall l, In l body -> is_data_line l = true ->
                 List.length (np_split_line l) = List.length (np_names_of names_line) }.

(** *** Track files for the examples *)

Definition newline : string := String (ascii_of_nat 10) "".

Definition track_header : list string :=
  ["#NUMBER OF AGES= 2 MAGS= 1";
   "#----------------------------------------------------";
   "#MIX-LEN  Y      Z          Zeff        [Fe/H] [a/Fe]";
   "# 1.9380  0.2459 5.4651E-04 5.4651E-04  -0.50   0.00";
   "#----------------------------------------------------";
   "#**PHOTOMETRIC SYSTEM**: SDSS ugriz (AB)";
   "#----------------------------------------------------";
   "#AGE= 1.000 EEPS=2";
   "#EEP   M/Mo    LogTeff  sdss_g"].

Definition track_block : list string :=
  ["   2  0.102436  3.5508  17.1";
   "   3  0.112436  3.5608  17.0"].

Definition with_newlines (lines : list string) : list string :=
  map (fun l => l ++ newline) lines.

(** Two ages, two rows each. *)
Definition sample_track : list string :=
  with_newlines
    (track_header ++ track_block ++
     [""; ""; "#AGE= 1.250 EEPS=2"; "#EEP   M/Mo    LogTeff  sdss_g"] ++
     track_block)%list.


(** A file with the header and no row. *)
Definition empty_track : list string := with_newlines track_header.


Definition track_name : string := "fehm05afep0.SDSSugriz".





(** ** Cache file names *)

(** [d[k]] on a dictionary of strings. *)
Fixpoint dict_get (d : list (string * string)) (k : string) : result string :=
  match d with
  | [] => Raise (KeyError k)
  | (k', v) :: d' => if k' =? k then Ok v else dict_get d' k
  end.

Definition default_kwargs : list (string * string) :=
  [("afe", "afep0"); ("y", "")].

Section Paths.
(** [ISOCHRONES] of [isochrones/config.py], the root of the data
    directory. *)
Variable ISOCHRONES : string.

Definition datadir : string := os_path_join ISOCHRONES "dartmouth".

(** [DartmouthModelGrid.hdf_filename]; [kwargs] is [self.kwargs]. *)
Definition hdf_filename (kwargs : list (string * string)) (phot : string)
  : result string :=
  afe <- dict_get kwargs "afe" ;;
  y <- dict_get kwargs "y" ;;
  afe_str <- (if negb (afe =? "afep0") then format "_{}" [afe] else Ok "") ;;
  name <- format "{}{}.h5" [phot; afe_str; y] ;;
  Ok (os_path_join datadir name).

(** [tri_filename] of [tri.py]. *)
Definition tri_filename (afe y : string) : result string :=
  afe_suffix <- (if afe =? "afep0" then Ok "" else format "_{}" [afe]) ;;
  y_suffix <- (if y =? "" then Ok "" else format "_{}" [y]) ;;
  name <- format "dartmouth{}{}.tri" [afe_suffix; y_suffix] ;;
  Ok (os_path_join ISOCHRONES name).
End Paths.

(** The cache file of a combination (photometric system, afe, y):
    [write_tri] called without a file name takes [tri_filename afe y],
    whatever the bands and so whatever the system they belong to. *)
Definition tri_cache_file (ISOCHRONES : string) (combination : string * string * string)
  : result string :=
  let '(_, afe, y) := combination in tri_filename ISOCHRONES afe y.

(** A name without underscore. *)
Definition not_underscore (c : ascii) : bool := negb (Ascii.eqb c "_").
Definition plain (s : string) : Prop := string_forallb not_underscore s = true.

(** ** The grid table *)

Open Scope R_scope.

(** A row of the grid: the common columns of [common_columns], and the
    magnitudes, one per band column of the table. Floats are modelled by
    real numbers here, because the aggregation takes a logarithm. *)
Record grid_row : Type := GridRow
  { EEP : R; MMo : R; LogTeff : R; LogG : R; LogLLo : R; age : R; feh : R;
    mags : list R }.

Definition common_columns : list string :=
  ["EEP"; "MMo"; "LogTeff"; "LogG"; "LogLLo"; "age"; "feh"].

(** A [DataFrame] with those columns. [index = None] is the default
    integer index; [Some keys] gives the key of each row. *)
Record Grid : Type := MkGrid
  { band_columns : list string;
    rows : list grid_row;
    index : option (list (R * R)) }.

Definition common_column (name : string) : option (grid_row -> R) :=
  if name =? "EEP" then Some EEP
  else if name =? "MMo" then Some MMo
  else if name =? "LogTeff" then Some LogTeff
  else if name =? "LogG" then Some LogG
  else if name =? "LogLLo" then Some LogLLo
  else if name =? "age" then Some age
  else if name =? "feh" then Some feh
  else None.

Fixpoint index_of (name : string) (cols : list string) : option nat :=
  match cols with
  | [] => None
  | c :: cols' =>
      if c =? name then Some O
      else match index_of name cols' with Some j => Some (S j) | None => None end
  end.

(** [df[name]] *)
Definition column (df : Grid) (name : string) : result (list R) :=
  match common_column name with
  | Some f => Ok (map f (rows df))
  | None =>
      match index_of name (band_columns df) with
      | Some j => Ok (map (fun r => nth j (mags r) 0) (rows df))
      | None => Raise (KeyError name)
      end
  end.

(** ** [df_all] *)

(** [np.log10] on positive numbers (numpy gives [-inf] at zero and [nan]
    below, which the reals do not have). *)
Definition np_log10 (x : R) : R := ln x / ln 10.

Definition Rltb (x y : R) : bool := if Rlt_dec x y then true else false.
Definition Reqb (x y : R) : bool := if Req_dec_T x y then true else false.

(** The order of [sort_values(by=['feh','age','MMo','EEP'])]. *)
Definition sort_key (r : grid_row) : list R := [feh r; age r; MMo r; EEP r].

Fixpoint lex_leb (k1 k2 : list R) : bool :=
  match k1, k2 with
  | x :: k1', y :: k2' => (Rltb x y || (Reqb x y && lex_leb k1' k2'))%bool
  | _, _ => true
  end.

Definition row_leb (r1 r2 : grid_row) : bool := lex_leb (sort_key r1) (sort_key r2).

(** A stable sort; the order pandas gives to rows that agree on the four
    columns plays no part below. *)
Fixpoint insert_row (r : grid_row) (l : list grid_row) : list grid_row :=
  match l with
  | [] => [r]
  | x :: l' => if row_leb r x then r :: l else x :: insert_row r l'
  end.

Fixpoint sort_values (l : list grid_row) : list grid_row :=
  match l with
  | [] => []
  | r :: l' => insert_row r (sort_values l')
  end.

Definition set_age (v : R) (r : grid_row) : grid_row :=
  GridRow (EEP r) (MMo r) (LogTeff r) (LogG r) (LogLLo r) v (feh r) (mags r).

(** [df.age * 1e9], then [np.log10]. *)
Definition log_age (r : grid_row) : grid_row :=
  set_age (np_log10 (age r * 1000000000)) r.

(** [col[0] == "F"] *)
Definition starts_with_F (col : string) : result bool :=
  match col with
  | String c _ => Ok (Ascii.eqb c "F")
  | EmptyString => Raise IndexError
  end.

Fixpoint cols_to_rename (cols : list string) : result (list string) :=
  match cols with
  | [] => Ok []
  | col :: cols' =>
      b <- starts_with_F col ;;
      l <- cols_to_rename cols' ;;
      Ok (if b then col :: l else l)
  end.

Fixpoint assoc (d : list (string * string)) (k : string) : option string :=
  match d with
  | [] => None
  | (k', v) :: d' => if k' =? k then Some v else assoc d' k
  end.

(** [df.rename(columns=d)] on the names of the columns. *)
Definition rename_columns (d : list (string * string)) (cols : list string) : list string :=
  map (fun c => match assoc d c with Some c' => c' | None => c end) cols.

(** [DartmouthModelGrid.df_all]. [df] is the table the inherited
    [ModelGrid.df_all] returns for [phot]: the tables of all the track
    files, one under the other. The loop of the renaming runs over all
    the columns; the common ones are tested first. *)
Definition df_all (phot : string) (df : Grid) : result Grid :=
  let sorted := sort_values (map log_age (rows df)) in
  let idx := map (fun r => (feh r, age r)) sorted in
  if py_in phot ["HST_WFPC2"] then
    old <- cols_to_rename (common_columns ++ band_columns df)%list ;;
    let new := map (fun col => "WFPC2_" ++ col)%string old in
    Ok (MkGrid (rename_columns (combine old new) (band_columns df)) sorted (Some idx))
  else Ok (MkGrid (band_columns df) sorted (Some idx)).

Definition row_le (a b : grid_row) : Prop := row_leb a b = true.

(** The key [df.index = [df.feh, df.age]] gives to a row. *)
Definition index_key (r : grid_row) : R * R := (feh r, age r).

(** The same key, from a row of the merged table. *)
Definition loaded_key (r : grid_row) : R * R :=
  (feh r, np_log10 (age r * 1000000000)).

(** The rows of [two_masses] below with other magnitudes. *)
Definition two_masses_fainter : Grid :=
  MkGrid ["sdss_g"]
    [ GridRow 2 1 3.76 4.4 0 1 0 [7];
      GridRow 2 2 3.95 4.3 1 1 0 [4] ]
    None.

(** Two points of one isochrone: same metallicity, same age, two
    masses. *)
Definition two_masses : Grid :=
  MkGrid ["sdss_g"]
    [ GridRow 2 1 3.76 4.4 0 1 0 [5];
      GridRow 2 2 3.95 4.3 1 1 0 [2] ]
    None.

Close Scope R_scope.

(** ** [write_tri] *)

Section WriteTri.
Variable ISOCHRONES : string.

(** [DartmouthModelGrid(bands, afe=afe, y=y).df]: the aggregated table
    of the grid, built by the inherited constructor. *)
Variable grid_df : list string -> string -> string -> result Grid.

(** [scipy.spatial.Delaunay] on a cloud of points of 3-space, with the
    type of the triangulations it returns. *)
Variable Tri : Type.
Variable Delaunay : list (R * R * R) -> result Tri.

(** [LinearNDInterpolator(pts, mags)]: scipy checks that there is one
    value per point, and triangulates the points. *)
Record interpolant : Type := Interp
  { tri : Tri;
    values : list R }.

Definition interpnd (pts : list (R * R * R)) (vals : list R) : result interpolant :=
  if Nat.eqb (List.length pts) (List.length vals) then
    t <- Delaunay pts ;; Ok (Interp t vals)
  else Raise (ValueError "different number of values and points").

(** The files written by [pickle.dump]: path to pickled object. *)
Definition tri_files : Type := string -> option Tri.

Definition dump (fs : tri_files) (path : string) (t : Tri) : tri_files :=
  fun p => if p =? path then Some t else fs p.

Definition points (df : Grid) : list (R * R * R) :=
  map (fun r => (MMo r, age r, feh r)) (rows df).

Definition write_tri_body (filename : string) (afe y : string)
    (bands : list string) (fs : tri_files) : result tri_files :=
  df <- grid_df bands afe y ;;
  let pts := points df in
  b0 <- match bands with b :: _ => Ok b | [] => Raise IndexError end ;;
  vals <- column df b0 ;;
  magfn <- interpnd pts vals ;;
  Ok (dump fs filename (tri magfn)).

Definition write_tri (filename : option string) (afe y : string)
    (bands : list string) (fs : tri_files) : printing tri_files :=
  match (match filename with
         | None => tri_filename ISOCHRONES afe y
         | Some f => Ok f
         end) with
  | Raise e => ([], Raise e)
  | Ok filename =>
      match format "Writing afe={} y={} to {}" [afe; y; filename] with
      | Raise e => ([], Raise e)
      | Ok msg => ([msg], write_tri_body filename afe y bands fs)
      end
  end.
End WriteTri.

(** ** Saving and loading a fitted model *)

Module Persist.

(** What the check needs of a fitted [StarModel]: the table of posterior
    samples, the bands of its isochrone ([mod.ic.bands]) and the name of
    the grid. Sample values are finite floats, modelled by the rationals
    they are. *)
Record StarModel : Type := MkStarModel
  { samples : list (list Q);
    ic_bands : list string;
    ic_name : string }.

(** The HDF5 files: the content of each file by path, and the number of
    handles open on each path
    ([tables.file._open_files.get_handlers_by_name]). *)
Record hdf_store : Type := MkStore
  { files : string -> option StarModel;
    handlers : string -> nat }.

Definition open_file (path : string) (st : hdf_store) : hdf_store :=
  MkStore (files st) (fun p => if p =? path then S (handlers st p) else handlers st p).

Definition close_file (path : string) (st : hdf_store) : hdf_store :=
  MkStore (files st) (fun p => if p =? path then pred (handlers st p) else handlers st p).

Definition put (path : string) (m : StarModel) (st : hdf_store) : hdf_store :=
  MkStore (fun p => if p =? path then Some m else files st p) (handlers st).

(** Modelled from the spec: [StarModel.save_hdf] is not among the sources.
    The container records the posterior sample table, the band list and
    the identity of the grid, and no handle stays open on the file. *)
Definition save_hdf (m : StarModel) (path : string) (st : hdf_store) : result hdf_store :=
  Ok (close_file path (put path m (open_file path st))).

(** Modelled from the spec: [StarModel.load_hdf] is not among the
    sources. It reads back what [save_hdf] recorded and closes the
    file. *)
Definition load_hdf (path : string) (st : hdf_store) : result (StarModel * hdf_store) :=
  match files st path with
  | None => Raise (IOError path)
  | Some m => Ok (m, close_file path (open_file path st))
  end.

(** [os.remove] *)
Definition os_remove (path : string) (st : hdf_store) : result hdf_store :=
  match files st path with
  | None => Raise (IOError path)
  | Some _ => Ok (MkStore (fun p => if p =? path then None else files st p) (handlers st))
  end.

(** [np.allclose(a, b)] with the default tolerances, on tables of the
    same shape. *)
Definition close_enough (a b : Q) : bool :=
  Qle_bool (Qabs (a - b)) ((1 # 100000000) + (1 # 100000) * Qabs b).

Fixpoint allclose_row (a b : list Q) : bool :=
  match a, b with
  | [], [] => true
  | x :: a', y :: b' => (close_enough x y && allclose_row a' b')%bool
  | _, _ => false
  end.

Fixpoint allclose (a b : list (list Q)) : bool :=
  match a, b with
  | [], [] => true
  | x :: a', y :: b' => (allclose_row x y && allclose a' b')%bool
  | _, _ => false
  end.

Definition py_assert (b : bool) : result unit :=
  if b then Ok tt else Raise AssertionError.

Definition list_string_eqb (a b : list string) : bool :=
  if list_eq_dec string_dec a b then true else false.

(** ['{}'.format(n)] on a natural number. *)
Definition str_of_N (n : N) : string := NilZero.string_of_uint (N.to_uint n).

(** [_check_saving] of [tests/test_fits.py]; [rnd] is the number drawn by
    [np.random.randint]. *)
Definition _check_saving (chainsdir : string) (rnd : N) (m : StarModel)
    (st : hdf_store) : result hdf_store :=
  name <- format "{}.h5" [str_of_N rnd] ;;
  let filename := os_path_join chainsdir name in
  st1 <- save_hdf m filename st ;;
  _ <- py_assert (Nat.eqb (handlers st1 filename) 0) ;;
  r <- load_hdf filename st1 ;;
  let (newmod, st2) := r in
  _ <- py_assert (Nat.eqb (handlers st2 filename) 0) ;;
  _ <- py_assert (allclose (samples m) (samples newmod)) ;;
  _ <- py_assert (list_string_eqb (ic_bands m) (ic_bands newmod)) ;;
  os_remove filename st2.

(** A store without file nor handle, and a fitted model of two samples
    (mass, age, feh, distance, AV) for the bands of the test. *)
Definition empty_store : hdf_store := MkStore (fun _ => None) (fun _ => O).

Definition fitted_example : StarModel :=
  MkStarModel [[1.02; 9.6; 0.05; 100; 0.1]; [0.98; 9.7; -0.02; 120; 0.2]]%Q
              ["B"; "V"] "dartmouth".

End Persist.

(** A file without marker, whose last row has no digit. *)
Definition unmarked_track : list string :=
  with_newlines
    (["#NUMBER OF AGES= 1 MAGS= 1";
      "#----------------------------------------------------";
      "#MIX-LEN  Y      Z          Zeff        [Fe/H] [a/Fe]";
      "# 1.9380  0.2459 5.4651E-04 5.4651E-04  -0.50   0.00";
      "#----------------------------------------------------";
      "#**PHOTOMETRIC SYSTEM**: SDSS ugriz (AB)";
      "#----------------------------------------------------";
      "#----------------------------------------------------";
      "#EEP   M/Mo    LogTeff  sdss_g"] ++
     track_block ++ ["  nan       nan     nan   nan"])%list.

Definition unmarked_df : track_df :=
  TrackDf [["2"; "0.102436"; "3.5508"; "17.1"];
           ["3"; "0.112436"; "3.5608"; "17.0"];
           ["nan"; "nan"; "nan"; "nan"]]
          [0; 0; 0]%Q (Some (- (1 # 2))%Q).

(** ** [phot_tarball_file] and [get_filenames] *)

(** [template.format( *args )] for templates whose fields are numbered
    by one digit, [{0}] to [{9}]; a number without argument raises
    [IndexError]. *)
Fixpoint format_numbered (t : string) (args : list string) : result string :=
  match t with
  | EmptyString => Ok EmptyString
  | String c t1 =>
      match t1 with
      | String d (String e t3) =>
          if (Ascii.eqb c "{" && is_digit d && Ascii.eqb e "}")%bool then
            match nth_error args (nat_of_ascii d - 48) with
            | Some a => r <- format_numbered t3 args ;; Ok (a ++ r)
            | None => Raise IndexError
            end
          else r <- format_numbered t1 args ;; Ok (String c r)
      | _ => r <- format_numbered t1 args ;; Ok (String c r)
      end
  end.

(** [DartmouthModelGrid.phot_tarball_file]; the keyword arguments are
    not used. *)
Definition phot_tarball_file (ISOCHRONES phot : string) : result string :=
  name <- format "{}.tgz" [phot] ;;
  Ok (os_path_join (datadir ISOCHRONES) name).

Section GetFilenames.
Variable ISOCHRONES : string.

(** The file system: its states, [os.path.exists], the two extractions
    inherited from [ModelGrid], and [glob.glob]. *)
Variable FS : Type.
Variable path_exists : FS -> string -> bool.
Variable extract_master_tarball : FS -> result FS.
Variable extract_phot_tarball : string -> FS -> result FS.
Variable glob : FS -> string -> list string.

(** The argument of [glob.glob]. *)
Definition track_pattern (phot afe y : string) : result string :=
  format_numbered "{3}/isochrones/{0}/*{1}{2}.{0}*" [phot; afe; y; datadir ISOCHRONES].

Definition get_filenames (phot afe y : string) (fs : FS) : result (list string * FS) :=
  fs2 <-
    (if negb (path_exists fs
                (os_path_join (os_path_join (datadir ISOCHRONES) "isochrones") phot))
     then
       fs1 <- (tarball <- phot_tarball_file ISOCHRONES phot ;;
               if negb (path_exists fs tarball) then extract_master_tarball fs
               else Ok fs) ;;
       extract_phot_tarball phot fs1
     else Ok fs) ;;
  pattern <- track_pattern phot afe y ;;
  Ok (glob fs2 pattern, fs2).
End GetFilenames.

(** ** Vocabulary of the further properties *)

(** The short names [get_band] knows by heart, branch after branch. *)
Definition short_aliases : list string :=
  (["u"; "g"; "r"; "i"; "z"] ++
   ["U"; "B"; "V"; "R"; "I"; "J"; "H"; "Ks"] ++
   ["K"] ++
   ["kep"; "Kepler"; "Kp"] ++
   ["W1"; "W2"; "W3"; "W4"] ++
   ["F555W"; "F606W"; "F814W"] ++
   ["WFPC2_F555W"; "WFPC2_F606W"; "WFPC2_F814W"])%list.

(** [rest] cannot prolong a run of characters of the class [f]: it is
    empty or starts outside the class. *)
Definition stops (f : ascii -> bool) (rest : string) : bool :=
  match rest with
  | EmptyString => true
  | String c _ => negb (f c)
  end.

(** The message of the [ValueError] of [get_band]. *)
Definition cannot_resolve (b : string) : exn :=
  ValueError ("Dartmouth Models cannot resolve band " ++ b ++ "!").

(** A character other than [f]. *)
Definition not_f (c : ascii) : bool := negb (Ascii.eqb c "f").

(** The match the matcher tries first: [Picks r s t rest g] when, on the
    subject [s], the pattern [r] first proposes the text [t] with the
    groups [g], leaving [rest], so that this is the match found whenever
    the rest of the pattern accepts it. *)
Definition Picks (r : regex) (s t rest : string) (g : list string) : Prop :=
  forall (A : Type) (k : cont A) (a : A),
    k t rest g = Some a -> run r s k = Some a.

(** The line of a marker: [#AGE=], white space [ws], the numeral
    [d1.d2], white space [sp] and anything. *)
Definition marker_line (ws d1 d2 sp rest : string) : string :=
  "#AGE=" ++ ws ++ (d1 ++ String "." d2) ++ sp ++ rest.

(** The number the numeral [d1.d2] denotes. *)
Definition decimal_number (d1 d2 : string) : Q :=
  Qred (decimal_value (d1 ++ d2) # Z.to_pos (10 ^ Z.of_nat (String.length d2))).

(** [col[0] == "F"] where it does not raise. *)
Definition starts_F (col : string) : bool :=
  match col with
  | String c _ => Ascii.eqb c "F"
  | EmptyString => false
  end.

(** The name [df_all] gives to a column of a WFPC2 table. *)
Definition wfpc2_name (col : string) : string :=
  match col with
  | String c _ => if Ascii.eqb c "F" then "WFPC2_" ++ col else col
  | EmptyString => col
  end.

(** The order of the keys of the index: by metallicity, then by age. *)
Definition key_le (k1 k2 : R * R) : Prop :=
  (fst k1 < fst k2 \/ (fst k1 = fst k2 /\ snd k1 <= snd k2))%R.

(** A table of the system HST_WFPC2 as the track files name its
    columns. *)
Definition wfpc2_table : Grid :=
  MkGrid ["F555W"; "F606W"; "F814W"]
    [ GridRow 2 1 3.76 4.4 0 1 0 [5; 4.8; 4.2]%R ]
    None.

(** * Properties *)

(** ** Band alias resolution *)

Lemma py_in_In (x : string) (l : list string) : py_in x l = true <-> In x l.
Proof.
  unfold py_in. rewrite existsb_exists. split.
  - intros [y [Hy He]]. apply String.eqb_eq in He. now subst.
  - intros H. exists x. split; [assumption | apply String.eqb_refl].
Qed.

Arguments py_in : simpl never.




(** The band returned is not checked against [phot_bands]: the second
    group of the pattern stops at the digit. *)
Example get_band_WISE_W1 :
  get_band "WISE_W1" = Ok ("WISE", "W") /\
  phot_bands "WISE" = Some ["W4"; "W3"; "W2"; "W1"].
Proof. split; reflexivity. Qed.

Example get_band_long_names :
  get_band "HST_WFPC2_F555W" = Ok ("HST_WFPC2", "WFPC2_F555W") /\
  get_band "LSST_r" = Ok ("LSST", "LSST_r") /\
  get_band "UK_K" = Ok ("UKIDSS", "K") /\
  get_band "Kepler" = Ok ("UBVRIJHKsKp", "Kp").
Proof. repeat split; reflexivity. Qed.

Example get_band_unknown :
  get_band "foo" = Raise (ValueError "Dartmouth Models cannot resolve band foo!").
Proof. reflexivity. Qed.

(** ** Facts on strings *)

Lemma append_nil_r (s : string) : s ++ "" = s.
Proof. induction s as [|c s IH]; simpl; [reflexivity | now rewrite IH]. Qed.

Lemma append_assoc (a b c : string) : (a ++ b) ++ c = a ++ b ++ c.
Proof. induction a as [|x a IH]; simpl; [reflexivity | now rewrite IH]. Qed.

Lemma append_inv_l (a b c : string) : a ++ b = a ++ c -> b = c.
Proof.
  induction a as [|x a IH]; simpl; intros H; [assumption|].
  injection H as H. auto.
Qed.

Lemma list_ascii_of_append (a b : string) :
  list_ascii_of_string (a ++ b) = (list_ascii_of_string a ++ list_ascii_of_string b)%list.
Proof. induction a as [|x a IH]; simpl; [reflexivity | now rewrite IH]. Qed.

Lemma append_inv_r (a b c : string) : b ++ a = c ++ a -> b = c.
Proof.
  intros H. apply (f_equal list_ascii_of_string) in H.
  rewrite !list_ascii_of_append in H. apply app_inv_tail in H.
  rewrite <- (string_of_list_ascii_of_string b), <- (string_of_list_ascii_of_string c).
  now rewrite H.
Qed.

Lemma span_plain (f : ascii -> bool) (a rest : string) :
  string_forallb f a = true ->
  (rest = "" \/ exists c r, rest = String c r /\ f c = false) ->
  span f (a ++ rest) = (a, rest).
Proof.
  induction a as [|x a IH]; simpl; intros Ha Hr.
  - destruct Hr as [-> | (c & r & -> & Hc)]; simpl; [reflexivity | now rewrite Hc].
  - apply andb_true_iff in Ha as [Hx Ha]. rewrite Hx, (IH Ha Hr). reflexivity.
Qed.

(** ** The matcher finds matches, and finds one when there is one *)

Section MatcherFacts.
Variable A : Type.
Implicit Types (k : cont A) (f : ascii -> bool).

Lemma greedy_sound f k : forall s acc a,
  greedy f k acc s = Some a ->
  exists t rest,
    s = t ++ rest /\ string_forallb f t = true /\ k (acc ++ t) rest [] = Some a.
Proof.
  induction s as [|c s IH]; intros acc a H; simpl in H.
  - exists "", "". rewrite (append_nil_r acc). auto.
  - destruct (f c) eqn:Fc.
    + destruct (greedy f k (acc ++ String c "") s) as [a'|] eqn:G.
      * injection H as <-. destruct (IH _ _ G) as (t & rest & -> & Ht & Hk).
        exists (String c t), rest. simpl. rewrite Fc, Ht.
        rewrite append_assoc in Hk. auto.
      * exists "", (String c s). rewrite (append_nil_r acc). auto.
    + exists "", (String c s). rewrite (append_nil_r acc). auto.
Qed.

Lemma greedy_complete f k rest : forall t acc,
  string_forallb f t = true ->
  (exists a, k (acc ++ t) rest [] = Some a) ->
  exists a, greedy f k acc (t ++ rest) = Some a.
Proof.
  induction t as [|c t IH]; intros acc Ht [a Hk]; simpl.
  - rewrite append_nil_r in Hk.
    destruct rest as [|c s]; simpl; [eauto|].
    destruct (f c); [|eauto].
    destruct (greedy f k (acc ++ String c "") s); eauto.
  - simpl in Ht. apply andb_true_iff in Ht as [Fc Ht]. rewrite Fc.
    destruct (IH (acc ++ String c "") Ht) as [a' ->]; [|eauto].
    exists a. now rewrite append_assoc.
Qed.
End MatcherFacts.

Lemma run_sound (A : Type) (r : regex) : forall (s : string) (k : cont A) (a : A),
  run r s k = Some a ->
  exists t rest g, s = t ++ rest /\ Matches r t g /\ k t rest g = Some a.
Proof.
  induction r as [c|f|f|f|r1 IH1 r2 IH2|r IH|]; intros s k a H; simpl in H.
  - destruct s as [|d s]; [discriminate|].
    destruct (Ascii.eqb d c) eqn:E; [|discriminate].
    apply Ascii.eqb_eq in E. subst d.
    exists (String c ""), s, []. repeat split; [constructor | assumption].
  - destruct s as [|d s]; [discriminate|].
    destruct (f d) eqn:E; [|discriminate].
    exists (String d ""), s, []. repeat split; [now constructor | assumption].
  - destruct (greedy_sound _ _ _ _ H) as (t & rest & -> & Ht & Hk).
    exists t, rest, []. repeat split; [now constructor | assumption].
  - destruct s as [|d s]; [discriminate|].
    destruct (f d) eqn:E; [|discriminate].
    destruct (greedy_sound _ _ _ _ H) as (t & rest & -> & Ht & Hk).
    exists (String d t), rest, []. repeat split; [now constructor | assumption].
  - destruct (IH1 _ _ _ H) as (t1 & s1 & g1 & -> & M1 & H1).
    destruct (IH2 _ _ _ H1) as (t2 & s2 & g2 & -> & M2 & H2).
    exists (t1 ++ t2), s2, (g1 ++ g2)%list. rewrite append_assoc.
    repeat split; [now constructor | assumption].
  - destruct (IH _ _ _ H) as (t & rest & g & -> & M & Hk).
    exists t, rest, (t :: g). repeat split; [now constructor | assumption].
  - exists "", s, []. repeat split; [constructor | assumption].
Qed.

Lemma run_complete (A : Type) (r : regex) (t : string) (g : list string) :
  Matches r t g ->
  forall (rest : string) (k : cont A),
    (exists a, k t rest g = Some a) -> exists a, run r (t ++ rest) k = Some a.
Proof.
  induction 1 as [c|f c Fc|f t Ht|f c t Fc Ht|r1 r2 t1 t2 g1 g2 _ IH1 _ IH2|r t g _ IH|];
    intros rest k Hk; simpl.
  - now rewrite Ascii.eqb_refl.
  - now rewrite Fc.
  - now apply greedy_complete.
  - rewrite Fc. now apply greedy_complete.
  - rewrite append_assoc. apply IH1. apply IH2. exact Hk.
  - apply IH. exact Hk.
  - exact Hk.
Qed.

Lemma re_match_sound (r : regex) (s : string) (m : match_obj) :
  re_match r s = Some m ->
  exists rest, s = whole m ++ rest /\ Matches r (whole m) (groups m).
Proof.
  intros H. destruct (run_sound _ _ _ H) as (t & rest & g & -> & M & E).
  injection E as <-. now exists rest.
Qed.

Lemma re_match_complete (r : regex) (t rest : string) (g : list string) :
  Matches r t g -> exists m, re_match r (t ++ rest) = Some m.
Proof. intros M. apply (run_complete M). eauto. Qed.

Lemma re_search_sound (r : regex) : forall (s : string) (m : match_obj),
  re_search r s = Some m ->
  exists pre rest, s = pre ++ whole m ++ rest /\ Matches r (whole m) (groups m).
Proof.
  induction s as [|c s IH]; intros m H; simpl in H.
  - destruct (re_match r "") as [m'|] eqn:E; [|discriminate].
    injection H as ->. destruct (re_match_sound _ _ E) as (rest & Hs & M).
    now exists "", rest.
  - destruct (re_match r (String c s)) as [m'|] eqn:E.
    + injection H as ->. destruct (re_match_sound _ _ E) as (rest & Hs & M).
      now exists "", rest.
    + destruct (IH _ H) as (pre & rest & -> & M).
      now exists (String c pre), rest.
Qed.

Lemma re_search_complete (r : regex) (t rest : string) (g : list string) :
  Matches r t g -> forall pre, exists m, re_search r (pre ++ t ++ rest) = Some m.
Proof.
  intros M. induction pre as [|c pre [m IH]].
  - destruct (re_match_complete rest M) as [m E]. exists m.
    cbn [append]. destruct (t ++ rest); simpl; now rewrite E.
  - cbn [append re_search]. destruct (re_match r _); eauto.
Qed.

Lemma Matches_Str (s t : string) (g : list string) :
  Matches (Str s) t g <-> t = s /\ g = [].
Proof.
  split.
  - revert t g. induction s as [|c s IH]; intros t g M; simpl in M.
    + now inversion M.
    + inversion M as [| | | |? ? ? ? ? ? M1 M2| |]; subst.
      inversion M1; subst. destruct (IH _ _ M2) as [-> ->]. auto.
  - intros [-> ->]. induction s as [|c s IH]; simpl; [constructor|].
    change (String c s) with (String c "" ++ s).
    change (@nil string) with (@nil string ++ [])%list.
    constructor; [constructor | assumption].
Qed.

Lemma re_search_leftmost (r : regex) : forall (s : string) (m : match_obj),
  re_search r s = Some m ->
  exists pre rest,
    s = pre ++ whole m ++ rest /\ Matches r (whole m) (groups m) /\
    forall pre1 pre2 t g rest',
      pre = pre1 ++ pre2 -> pre2 <> "" ->
      pre2 ++ whole m ++ rest = t ++ rest' -> ~ Matches r t g.
Proof.
  induction s as [|c s IH]; intros m H; simpl in H.
  - destruct (re_match r "") as [m'|] eqn:E; [|discriminate].
    injection H as ->. destruct (re_match_sound _ _ E) as (rest & Hs & M).
    exists "", rest. repeat split; try assumption.
    intros [|] [|] ? ? ? Hp Hn; try discriminate. contradiction.
  - destruct (re_match r (String c s)) as [m'|] eqn:E.
    + injection H as ->. destruct (re_match_sound _ _ E) as (rest & Hs & M).
      exists "", rest. repeat split; try assumption.
      intros [|] [|] ? ? ? Hp Hn; try discriminate. contradiction.
    + destruct (IH _ H) as (pre & rest & -> & M & L).
      exists (String c pre), rest. repeat split; try assumption.
      intros pre1 pre2 t g rest' Hp Hn Ht M'.
      destruct pre1 as [|c1 pre1]; cbn [append] in Hp.
      * subst pre2. cbn [append] in Ht. rewrite Ht in E.
        destruct (re_match_complete rest' M') as [m' E']. congruence.
      * injection Hp as _ Hp. exact (L _ _ _ _ _ Hp Hn Ht M').
Qed.

(** ** Cache file names *)

Lemma format_field (a : string) (rest : list string) :
  format "_{}" (a :: rest) = Ok ("_" ++ a).
Proof. cbn. now rewrite append_nil_r. Qed.

(** C10. [hdf_filename] does not look at [y]: for the same system and the
    same [afe], two dictionaries of keyword arguments that give different
    values to [y] give the same path, [datadir] joined with the system,
    the [afe] suffix (empty for [afep0]) and [.h5]. *)
Theorem hdf_filename_ignores_y
    (ISOCHRONES phot afe y1 y2 : string) (kw1 kw2 : list (string * string)) :
  dict_get kw1 "afe" = Ok afe -> dict_get kw2 "afe" = Ok afe ->
  dict_get kw1 "y" = Ok y1 -> dict_get kw2 "y" = Ok y2 ->
  hdf_filename ISOCHRONES kw1 phot =
    Ok (os_path_join (datadir ISOCHRONES)
          (phot ++ (if afe =? "afep0" then "" else "_" ++ afe) ++ ".h5")) /\
  hdf_filename ISOCHRONES kw2 phot = hdf_filename ISOCHRONES kw1 phot.
Proof.
  intros A1 A2 Y1 Y2. unfold hdf_filename.
  rewrite A1, A2, Y1, Y2. cbn [bind].
  destruct (afe =? "afep0"); cbn [negb].
  - split; reflexivity.
  - rewrite format_field. split; reflexivity.
Qed.

Example hdf_filename_default :
  hdf_filename "/data/.isochrones" default_kwargs "SDSSugriz"
    = Ok "/data/.isochrones/dartmouth/SDSSugriz.h5".
Proof. reflexivity. Qed.

Lemma hdf_filename_ignores_y_witness :
  hdf_filename "/data/.isochrones" [("afe", "afep2"); ("y", "")] "SDSSugriz"
    = Ok "/data/.isochrones/dartmouth/SDSSugriz_afep2.h5" /\
  hdf_filename "/data/.isochrones" [("afe", "afep2"); ("y", "y33")] "SDSSugriz"
    = hdf_filename "/data/.isochrones" [("afe", "afep2"); ("y", "")] "SDSSugriz".
Proof.
  apply (@hdf_filename_ignores_y "/data/.isochrones" "SDSSugriz" "afep2" "" "y33"
           [("afe", "afep2"); ("y", "")] [("afe", "afep2"); ("y", "y33")]);
    reflexivity.
Defined.

Lemma tri_filename_eq (ISOCHRONES afe y : string) :
  tri_filename ISOCHRONES afe y =
    Ok (os_path_join ISOCHRONES
          ("dartmouth" ++ (if afe =? "afep0" then "" else "_" ++ afe)
                       ++ (if y =? "" then "" else "_" ++ y) ++ ".tri")).
Proof.
  unfold tri_filename.
  destruct (afe =? "afep0"), (y =? ""); rewrite ?format_field; reflexivity.
Qed.

Lemma os_path_join_relative_inj (a b c : string) :
  starts_with_slash b = false -> starts_with_slash c = false ->
  os_path_join a b = os_path_join a c -> b = c.
Proof.
  unfold os_path_join. intros -> ->.
  destruct (String.eqb a "" || ends_with_slash a)%bool; intros H.
  - now apply append_inv_l in H.
  - apply append_inv_l in H. now injection H.
Qed.

(** The suffix of a parameter: empty for the default value, else an
    underscore and the value. *)
Lemma suffix_shape (dflt v : string) :
  let sfx := if v =? dflt then "" else "_" ++ v in
  sfx = "" \/ exists c r, sfx = String c r /\ not_underscore c = false.
Proof.
  destruct (v =? dflt); [now left | right].
  exists "_"%char, v. split; reflexivity.
Qed.

(** C6, as the code has it. The cache file of the triangulation does not
    depend on the photometric system; it is named after [afe] and [y]
    alone, and names two pairs differently when the four values have no
    underscore and no [y] value is also used as an [afe] value. *)
Theorem tri_cache_file_keyed_by_afe_y
    (ISOCHRONES phot1 phot2 afe1 y1 afe2 y2 : string) :
  plain afe1 -> plain afe2 -> plain y1 -> plain y2 ->
  y1 <> afe2 -> y2 <> afe1 ->
  tri_cache_file ISOCHRONES (phot1, afe1, y1) = tri_cache_file ISOCHRONES (phot2, afe1, y1) /\
  (exists path, tri_cache_file ISOCHRONES (phot1, afe1, y1) = Ok path) /\
  (tri_cache_file ISOCHRONES (phot1, afe1, y1) = tri_cache_file ISOCHRONES (phot2, afe2, y2) ->
   afe1 = afe2 /\ y1 = y2).
Proof.
  intros Pa1 Pa2 Py1 Py2 N1 N2. cbn [tri_cache_file].
  split; [reflexivity|]. rewrite !tri_filename_eq.
  split; [eexists; reflexivity|].
  intros H. injection H as H.
  apply os_path_join_relative_inj in H; [|reflexivity|reflexivity].
  apply (append_inv_l "dartmouth") in H.
  rewrite <- !append_assoc in H. apply append_inv_r in H.
  pose proof (suffix_shape "" y1) as S1. pose proof (suffix_shape "" y2) as S2.
  cbn [append] in S1, S2.
  assert (Hy : (if y1 =? "" then "" else String "_"%char y1)
               = (if y2 =? "" then "" else String "_"%char y2) -> y1 = y2).
  { destruct (y1 =? "") eqn:F1, (y2 =? "") eqn:F2;
      try apply String.eqb_eq in F1; try apply String.eqb_eq in F2;
      subst; try reflexivity; try discriminate.
    intros E. now injection E. }
  remember (if y1 =? "" then "" else String "_"%char y1) as Y1 eqn:EY1.
  remember (if y2 =? "" then "" else String "_"%char y2) as Y2 eqn:EY2.
  destruct (afe1 =? "afep0") eqn:E1, (afe2 =? "afep0") eqn:E2.
  - apply String.eqb_eq in E1, E2. subst afe1 afe2. split; [reflexivity|].
    apply Hy. exact H.
  - exfalso. cbn [append] in H. subst Y1.
    destruct (y1 =? "") eqn:F1; [discriminate|]. clear S1 Hy.
    injection H as H.
    apply (f_equal (span not_underscore)) in H.
    rewrite (span_plain _ _ Pa2 S2) in H.
    rewrite <- (append_nil_r y1) in H at 1.
    rewrite (span_plain _ _ Py1 (or_introl eq_refl)) in H.
    injection H as H _. contradiction.
  - exfalso. cbn [append] in H. subst Y2.
    destruct (y2 =? "") eqn:F2; [discriminate|]. clear S2 Hy.
    injection H as H.
    apply (f_equal (span not_underscore)) in H.
    rewrite (span_plain _ _ Pa1 S1) in H.
    rewrite <- (append_nil_r y2) in H at 1.
    rewrite (span_plain _ _ Py2 (or_introl eq_refl)) in H.
    injection H as H _. symmetry in H. contradiction.
  - cbn [append] in H. injection H as H.
    apply (f_equal (span not_underscore)) in H.
    rewrite (span_plain _ _ Pa1 S1), (span_plain _ _ Pa2 S2) in H.
    injection H as Ha Hy'. split; [assumption|]. now apply Hy.
Qed.

Lemma tri_cache_file_keyed_by_afe_y_witness :
  tri_cache_file "/data/.isochrones" ("SDSSugriz", "afep2", "y33")
    = tri_cache_file "/data/.isochrones" ("WISE", "afep2", "y33") /\
  (exists path, tri_cache_file "/data/.isochrones" ("SDSSugriz", "afep2", "y33") = Ok path) /\
  (tri_cache_file "/data/.isochrones" ("SDSSugriz", "afep2", "y33")
     = tri_cache_file "/data/.isochrones" ("WISE", "afep0", "") ->
   "afep2" = "afep0" /\ "y33" = "").
Proof.
  apply (@tri_cache_file_keyed_by_afe_y "/data/.isochrones" "SDSSugriz" "WISE"
           "afep2" "y33" "afep0" "");
    try reflexivity; discriminate.
Defined.

(** C6, as the specification has it, fails: two combinations that differ
    in the photometric system share the cache file. *)
Lemma tri_cache_file_shared_across_systems :
  ("SDSSugriz", "afep0", "") <> ("WISE", "afep0", "") /\
  get_band "g" = Ok ("SDSSugriz", "sdss_g") /\
  get_band "W1" = Ok ("WISE", "W1") /\
  tri_cache_file "/data/.isochrones" ("SDSSugriz", "afep0", "")
    = Ok "/data/.isochrones/dartmouth.tri" /\
  tri_cache_file "/data/.isochrones" ("WISE", "afep0", "")
    = Ok "/data/.isochrones/dartmouth.tri".
Proof. repeat split; try reflexivity. discriminate. Qed.

(** Without a file name of the caller's, [write_tri] writes to
    [tri_filename afe y]: the bands, hence the system, play no part in the
    choice of the file. *)
Lemma write_tri_writes_tri_filename
    (ISOCHRONES : string) (grid_df : list string -> string -> string -> result Grid)
    (Tri : Type) (Delaunay : list (R * R * R) -> result Tri)
    (afe y : string) (bands : list string) (fs fs' : tri_files Tri) (out : list string) :
  write_tri ISOCHRONES grid_df Delaunay None afe y bands fs = (out, Ok fs') ->
  exists path t, tri_filename ISOCHRONES afe y = Ok path /\ fs' = dump fs path t.
Proof.
  unfold write_tri. rewrite tri_filename_eq.
  destruct (format _ _) as [msg|e]; [|discriminate].
  intros H. injection H as _ H. unfold write_tri_body in H.
  destruct (grid_df bands afe y) as [df|]; [|discriminate]. cbn [bind] in H.
  destruct bands as [|b0 bands]; [discriminate|]. cbn [bind] in H.
  destruct (column df b0) as [vals|]; [|discriminate]. cbn [bind] in H.
  destruct (interpnd Delaunay (points df) vals) as [magfn|]; [|discriminate].
  cbn [bind] in H. injection H as <-.
  eexists; eexists; split; reflexivity.
Qed.

(** ** Aggregation of the grid *)

Section DfAll.
Open Scope R_scope.

Lemma lex_leb_total (k1 k2 : list R) : lex_leb k1 k2 = false -> lex_leb k2 k1 = true.
Proof.
  revert k2. induction k1 as [|x k1 IH]; intros [|y k2]; simpl; try discriminate.
  unfold Rltb, Reqb.
  destruct (Rlt_dec x y), (Rlt_dec y x), (Req_dec_T x y), (Req_dec_T y x);
    simpl; try discriminate; try reflexivity; try lra.
  apply IH.
Qed.

Lemma insert_row_perm (r : grid_row) (l : list grid_row) :
  Permutation (insert_row r l) (r :: l).
Proof.
  induction l as [|x l IH]; simpl; [reflexivity|].
  destruct (row_leb r x); [reflexivity|].
  rewrite IH. apply perm_swap.
Qed.

Lemma sort_values_perm (l : list grid_row) : Permutation (sort_values l) l.
Proof.
  induction l as [|r l IH]; simpl; [reflexivity|].
  rewrite insert_row_perm. now constructor.
Qed.

Lemma insert_row_sorted (r : grid_row) (l : list grid_row) :
  Sorted row_le l -> Sorted row_le (insert_row r l).
Proof.
  induction l as [|x l IH]; simpl; intros H.
  - repeat constructor.
  - destruct (row_leb r x) eqn:E.
    + constructor; [assumption | constructor; exact E].
    + inversion H as [|? ? Hs Hd]; subst. constructor; [now apply IH|].
      destruct l as [|z l]; simpl.
      * constructor. now apply lex_leb_total.
      * destruct (row_leb r z); constructor.
        -- now apply lex_leb_total.
        -- now inversion Hd.
Qed.

Lemma sort_values_sorted (l : list grid_row) : Sorted row_le (sort_values l).
Proof.
  induction l as [|r l IH]; simpl; [constructor | now apply insert_row_sorted].
Qed.

Lemma cols_to_rename_ok (cols : list string) :
  Forall (fun c => c <> ""%string) cols -> exists l, cols_to_rename cols = Ok l.
Proof.
  induction 1 as [|c cols Hc _ [l IH]]; simpl; [now eexists|].
  destruct c as [|x c]; [contradiction|]. simpl. rewrite IH. simpl. now eexists.
Qed.

(** What [df_all] returns: the rows with the age replaced, sorted, and
    keyed by (feh, age). *)
Lemma df_all_returns (phot : string) (df : Grid) :
  Forall (fun c => c <> ""%string) (band_columns df) ->
  exists cols,
    let sorted := sort_values (map log_age (rows df)) in
    df_all phot df = Ok (MkGrid cols sorted (Some (map index_key sorted))).
Proof.
  intros Hc. unfold df_all. destruct (py_in phot ["HST_WFPC2"%string]).
  - destruct (@cols_to_rename_ok (common_columns ++ band_columns df)) as [l El].
    { apply Forall_app. split; [|assumption].
      unfold common_columns. repeat constructor; discriminate. }
    rewrite El. cbn [bind]. eexists. reflexivity.
  - eexists. reflexivity.
Qed.

Lemma np_log10_power (x : R) : 0 < x -> Rpower 10 (np_log10 x) = x.
Proof.
  intros Hx. unfold Rpower, np_log10.
  assert (H10 : ln 10 <> 0).
  { apply Rgt_not_eq. rewrite <- ln_1. apply ln_increasing; lra. }
  replace (ln x / ln 10 * ln 10) with (ln x) by (field; assumption).
  now apply exp_ln.
Qed.

Lemma np_log10_giga : np_log10 (1 * 1000000000) = 9.
Proof.
  unfold np_log10.
  assert (H10 : ln 10 <> 0).
  { apply Rgt_not_eq. rewrite <- ln_1. apply ln_increasing; lra. }
  replace (1 * 1000000000) with (10 ^ 9) by (simpl; lra).
  rewrite ln_pow by lra. simpl INR. field. assumption.
Qed.

(** C3. In the table [df_all] returns, the age of every row is the
    decimal logarithm of the age of a row of the merged table taken in
    years (ten to the stored age gives the loaded age times 1e9), the
    other common columns being kept; an age of 1.0 is stored as 9. *)
Theorem df_all_age_is_log10_years (phot : string) (df : Grid) :
  Forall (fun r => 0 < age r) (rows df) ->
  Forall (fun c => c <> ""%string) (band_columns df) ->
  exists out,
    df_all phot df = Ok out /\
    Permutation (rows out) (map log_age (rows df)) /\
    forall r, In r (rows out) ->
      exists r0, In r0 (rows df) /\
        r = set_age (np_log10 (age r0 * 1000000000)) r0 /\
        age r = np_log10 (age r0 * 1000000000) /\
        Rpower 10 (age r) = age r0 * 1000000000 /\
        (age r0 = 1 -> age r = 9).
Proof.
  intros Hpos Hc. destruct (@df_all_returns phot df Hc) as [cols E].
  cbv zeta in E. eexists. split; [exact E|]. cbn [rows].
  split; [apply sort_values_perm|].
  intros r Hr.
  apply (Permutation_in _ (sort_values_perm _)) in Hr.
  apply in_map_iff in Hr as [r0 [<- Hr0]].
  exists r0. split; [assumption|]. split; [reflexivity|]. split; [reflexivity|].
  rewrite Forall_forall in Hpos. specialize (Hpos r0 Hr0).
  split.
  - cbn [log_age set_age age]. apply np_log10_power. lra.
  - intros E1. cbn [log_age set_age age]. rewrite E1. apply np_log10_giga.
Qed.

Lemma df_all_age_is_log10_years_witness :
  exists out,
    df_all "SDSSugriz" two_masses = Ok out /\
    Permutation (rows out) (map log_age (rows two_masses)) /\
    forall r, In r (rows out) ->
      exists r0, In r0 (rows two_masses) /\
        r = set_age (np_log10 (age r0 * 1000000000)) r0 /\
        age r = np_log10 (age r0 * 1000000000) /\
        Rpower 10 (age r) = age r0 * 1000000000 /\
        (age r0 = 1 -> age r = 9).
Proof.
  apply (@df_all_age_is_log10_years "SDSSugriz" two_masses).
  - repeat constructor; simpl; lra.
  - repeat constructor; discriminate.
Defined.

Lemma df_all_index (phot : string) (df : Grid) :
  Forall (fun c => c <> ""%string) (band_columns df) ->
  exists out idx,
    df_all phot df = Ok out /\
    index out = Some idx /\
    idx = map index_key (rows out) /\
    Sorted row_le (rows out) /\
    Permutation idx (map loaded_key (rows df)).
Proof.
  intros Hc. destruct (@df_all_returns phot df Hc) as [cols E]. cbv zeta in E.
  eexists. eexists. split; [exact E|]. cbn [index rows].
  split; [reflexivity|]. split; [reflexivity|].
  split; [apply sort_values_sorted|].
  rewrite (Permutation_map index_key (sort_values_perm _)).
  rewrite map_map. reflexivity.
Qed.

Lemma np_log10_inj (x y : R) : 0 < x -> 0 < y -> np_log10 x = np_log10 y -> x = y.
Proof.
  intros Hx Hy E. rewrite <- (np_log10_power Hx), <- (np_log10_power Hy).
  now rewrite E.
Qed.

Lemma NoDup_map_equiv (A B C : Type) (f : A -> B) (g : A -> C) (l : list A) :
  (forall a b, In a l -> In b l -> f a = f b -> g a = g b) ->
  NoDup (map g l) -> NoDup (map f l).
Proof.
  induction l as [|x l IH]; intros H N; simpl; [constructor|].
  inversion N as [|? ? Hx Hl]; subst. constructor.
  - intros Hin. apply in_map_iff in Hin as (y & Ey & Hy).
    apply Hx. apply in_map_iff. exists y. split; [|assumption].
    apply H; [now right | now left | assumption].
  - apply IH; [|assumption]. intros a b Ha Hb. apply H; now right.
Qed.

Lemma loaded_key_eq (a b : grid_row) :
  0 < age a -> 0 < age b -> (loaded_key a = loaded_key b <-> index_key a = index_key b).
Proof.
  intros Ha Hb. unfold loaded_key, index_key. split; intros E; injection E as Ef Ea.
  - apply np_log10_inj in Ea; [|lra|lra]. f_equal; [assumption | lra].
  - now rewrite Ef, Ea.
Qed.

(** C8, as the code has it. The index [df_all] sets gives every row of
    the sorted table its pair (feh, log-age); it is free of repetition
    exactly when no two rows of the merged table have the same
    metallicity and the same age. *)
Theorem df_all_index_is_feh_age (phot : string) (df : Grid) :
  Forall (fun r => 0 < age r) (rows df) ->
  Forall (fun c => c <> ""%string) (band_columns df) ->
  exists out idx,
    df_all phot df = Ok out /\
    index out = Some idx /\
    idx = map index_key (rows out) /\
    Sorted row_le (rows out) /\
    (NoDup idx <-> NoDup (map index_key (rows df))).
Proof.
  intros Hpos Hc.
  destruct (@df_all_index phot df Hc) as (out & idx & E & Ei & Em & Hs & Hp).
  exists out, idx. repeat (split; [assumption|]).
  rewrite Forall_forall in Hpos.
  split; intros N.
  - apply (Permutation_NoDup Hp) in N. revert N. apply NoDup_map_equiv.
    intros a b Ha Hb. now apply loaded_key_eq; apply Hpos.
  - apply (Permutation_NoDup (Permutation_sym Hp)). revert N. apply NoDup_map_equiv.
    intros a b Ha Hb. now apply loaded_key_eq; apply Hpos.
Qed.

Lemma df_all_index_is_feh_age_witness :
  exists out idx,
    df_all "SDSSugriz" two_masses = Ok out /\
    index out = Some idx /\
    idx = map index_key (rows out) /\
    Sorted row_le (rows out) /\
    (NoDup idx <-> NoDup (map index_key (rows two_masses))).
Proof.
  apply (@df_all_index_is_feh_age "SDSSugriz" two_masses).
  - repeat constructor; simpl; lra.
  - repeat constructor; discriminate.
Defined.

(** C8, as the specification has it, fails: the two rows of
    [two_masses] get the same key. *)
Lemma df_all_index_not_unique :
  exists out idx,
    df_all "SDSSugriz" two_masses = Ok out /\
    index out = Some idx /\
    ~ NoDup idx.
Proof.
  destruct (@df_all_index "SDSSugriz" two_masses) as (out & idx & E & Ei & _ & _ & Hp).
  { repeat constructor; discriminate. }
  exists out, idx. split; [assumption|]. split; [assumption|].
  intros Hn. apply (Permutation_NoDup Hp) in Hn.
  cbn [two_masses rows map loaded_key feh age] in Hn.
  inversion Hn as [|? ? Hin _]. apply Hin. now left.
Qed.

End DfAll.

(** ** The triangulation written by [write_tri] *)

Section WriteTriFacts.
Variable ISOCHRONES : string.
Variable Tri : Type.
Variable Delaunay : list (R * R * R) -> result Tri.

Lemma column_length (df : Grid) (name : string) (vals : list R) :
  column df name = Ok vals -> List.length vals = List.length (points df).
Proof.
  unfold column, points. intros H.
  destruct (common_column name) as [f|].
  - injection H as <-. now rewrite !length_map.
  - destruct (index_of name (band_columns df)) as [j|]; [|discriminate].
    injection H as <-. now rewrite !length_map.
Qed.

(** With the column of the first band present, the body of [write_tri]
    stores the triangulation of the points, or fails as [Delaunay]
    does. *)
Lemma write_tri_body_points
    (grid_df : list string -> string -> string -> result Grid)
    (filename afe y b0 : string) (rest : list string) (fs : tri_files Tri)
    (df : Grid) (vals : list R) :
  grid_df (b0 :: rest) afe y = Ok df ->
  column df b0 = Ok vals ->
  write_tri_body grid_df Delaunay filename afe y (b0 :: rest) fs =
    (t <- Delaunay (points df) ;; Ok (dump fs filename t)).
Proof.
  intros Hg Hc. unfold write_tri_body. rewrite Hg. cbn [bind]. rewrite Hc.
  cbn [bind]. unfold interpnd.
  rewrite (@column_length df b0 vals Hc), Nat.eqb_refl.
  destruct (Delaunay (points df)); reflexivity.
Qed.

(** C7. Two runs of [write_tri] over grids that have the same
    coordinate columns (MMo, age, feh), whatever the magnitudes of the
    band, print the same line and leave the same files: the object
    written is the triangulation of the points alone. *)
Theorem write_tri_ignores_magnitudes
    (grid1 grid2 : list string -> string -> string -> result Grid)
    (filename : option string) (afe y b0 : string) (rest : list string)
    (fs : tri_files Tri) (df1 df2 : Grid) (vals1 vals2 : list R) :
  grid1 (b0 :: rest) afe y = Ok df1 ->
  grid2 (b0 :: rest) afe y = Ok df2 ->
  column df1 b0 = Ok vals1 ->
  column df2 b0 = Ok vals2 ->
  points df1 = points df2 ->
  write_tri ISOCHRONES grid1 Delaunay filename afe y (b0 :: rest) fs =
  write_tri ISOCHRONES grid2 Delaunay filename afe y (b0 :: rest) fs.
Proof.
  intros G1 G2 C1 C2 Hp. unfold write_tri.
  destruct (match filename with None => _ | Some f => _ end) as [path|e];
    [|reflexivity].
  destruct (format _ _) as [msg|e]; [|reflexivity].
  f_equal.
  rewrite (@write_tri_body_points grid1 path afe y b0 rest fs df1 vals1 G1 C1).
  rewrite (@write_tri_body_points grid2 path afe y b0 rest fs df2 vals2 G2 C2).
  now rewrite Hp.
Qed.
End WriteTriFacts.

Lemma write_tri_ignores_magnitudes_witness :
  write_tri "/data/.isochrones" (fun _ _ _ => Ok two_masses)
      (fun pts => Ok pts) None "afep0" "" ["sdss_g"] (fun _ => None) =
  write_tri "/data/.isochrones" (fun _ _ _ => Ok two_masses_fainter)
      (fun pts => Ok pts) None "afep0" "" ["sdss_g"] (fun _ => None).
Proof.
  apply (@write_tri_ignores_magnitudes "/data/.isochrones" _ (fun pts => Ok pts)
           (fun _ _ _ => Ok two_masses) (fun _ _ _ => Ok two_masses_fainter)
           None "afep0" "" "sdss_g" [] (fun _ => None)
           two_masses two_masses_fainter [5; 2]%R [7; 4]%R);
    reflexivity.
Defined.

(** ** Saving and loading a fitted model *)

Module PersistFacts.
Import Persist.

Lemma close_enough_refl (x : Q) : close_enough x x = true.
Proof.
  unfold close_enough. apply Qle_bool_iff.
  assert (E : (x - x == 0)%Q) by ring.
  rewrite E. change (Qabs 0) with 0%Q.
  assert (H := Qabs_nonneg x).
  assert (H1 : (0 <= (1 # 100000) * Qabs x)%Q).
  { apply Qmult_le_0_compat; [discriminate | assumption]. }
  apply (Qle_trans _ (0 + 0)%Q); [discriminate|].
  apply Qplus_le_compat; [discriminate | assumption].
Qed.

Lemma allclose_row_refl (a : list Q) : allclose_row a a = true.
Proof.
  induction a as [|x a IH]; simpl; [reflexivity|].
  now rewrite close_enough_refl, IH.
Qed.

Lemma allclose_refl (a : list (list Q)) : allclose a a = true.
Proof.
  induction a as [|x a IH]; simpl; [reflexivity|].
  now rewrite allclose_row_refl, IH.
Qed.

Lemma list_string_eqb_refl (a : list string) : list_string_eqb a a = true.
Proof. unfold list_string_eqb. now destruct (list_eq_dec string_dec a a). Qed.

(** C9. On a file with no handle open, saving a fitted model and loading
    the file gives back the sample table and the band list as they were,
    no handle is open on the file after the save nor after the load, and
    the check of the test suite passes for the file it names. *)
Theorem save_then_load_roundtrip (m : StarModel) (path : string) (st : hdf_store) :
  handlers st path = 0%nat ->
  exists st1 st2 newmod,
    save_hdf m path st = Ok st1 /\
    handlers st1 path = 0%nat /\
    load_hdf path st1 = Ok (newmod, st2) /\
    handlers st2 path = 0%nat /\
    samples newmod = samples m /\
    ic_bands newmod = ic_bands m /\
    allclose (samples m) (samples newmod) = true /\
    forall (chainsdir : string) (rnd : N),
      path = os_path_join chainsdir (str_of_N rnd ++ ".h5") ->
      exists st3, _check_saving chainsdir rnd m st = Ok st3 /\ files st3 path = None.
Proof.
  intros H0.
  assert (H1 : handlers (close_file path (put path m (open_file path st))) path = 0%nat).
  { cbn [handlers close_file put open_file]. rewrite !String.eqb_refl.
    cbn [pred]. exact H0. }
  assert (HL : load_hdf path (close_file path (put path m (open_file path st)))
               = Ok (m, close_file path (open_file path
                          (close_file path (put path m (open_file path st)))))).
  { unfold load_hdf. cbn [files close_file put open_file]. now rewrite String.eqb_refl. }
  assert (H2 : handlers (close_file path (open_file path
                  (close_file path (put path m (open_file path st))))) path = 0%nat).
  { cbn [handlers close_file put open_file]. rewrite !String.eqb_refl.
    cbn [pred]. exact H0. }
  eexists. eexists. exists m.
  split; [reflexivity|]. split; [exact H1|]. split; [exact HL|].
  split; [exact H2|]. split; [reflexivity|]. split; [reflexivity|].
  split; [apply allclose_refl|].
  intros chainsdir rnd ->. unfold _check_saving.
  assert (F : format "{}.h5" [str_of_N rnd] = Ok (str_of_N rnd ++ ".h5")) by reflexivity.
  rewrite F. cbn [bind save_hdf].
  rewrite H1. cbn [Nat.eqb py_assert bind].
  rewrite HL. cbn [bind].
  rewrite H2. cbn [Nat.eqb py_assert bind].
  rewrite allclose_refl, list_string_eqb_refl. cbn [py_assert bind].
  unfold os_remove. cbn [files close_file put open_file].
  rewrite String.eqb_refl. eexists. split; [reflexivity|].
  cbn [files]. now rewrite String.eqb_refl.
Qed.

Lemma save_then_load_roundtrip_witness :
  exists st1 st2 newmod,
    save_hdf fitted_example "/tmp/42.h5" empty_store = Ok st1 /\
    handlers st1 "/tmp/42.h5" = 0%nat /\
    load_hdf "/tmp/42.h5" st1 = Ok (newmod, st2) /\
    handlers st2 "/tmp/42.h5" = 0%nat /\
    samples newmod = samples fitted_example /\
    ic_bands newmod = ic_bands fitted_example /\
    allclose (samples fitted_example) (samples newmod) = true /\
    forall (chainsdir : string) (rnd : N),
      "/tmp/42.h5" = os_path_join chainsdir (str_of_N rnd ++ ".h5") ->
      exists st3, _check_saving chainsdir rnd fitted_example empty_store = Ok st3
                  /\ files st3 "/tmp/42.h5" = None.
Proof.
  apply (@save_then_load_roundtrip fitted_example "/tmp/42.h5" empty_store).
  reflexivity.
Defined.

Example check_saving_passes :
  is_ok (_check_saving "/tmp" 42 fitted_example empty_store) = true.
Proof. reflexivity. Qed.

End PersistFacts.

(** ** Metallicity from the file name *)

Lemma Matches_Seq_inv (r1 r2 : regex) (t : string) (g : list string) :
  Matches (Seq r1 r2) t g ->
  exists t1 t2 g1 g2,
    t = t1 ++ t2 /\ g = (g1 ++ g2)%list /\ Matches r1 t1 g1 /\ Matches r2 t2 g2.
Proof. intros M. inversion M; subst. repeat eexists; eassumption. Qed.

Lemma Matches_Group_inv (r : regex) (t : string) (g : list string) :
  Matches (Group r) t g -> exists g', g = t :: g' /\ Matches r t g'.
Proof. intros M. inversion M; subst. eauto. Qed.

Lemma Matches_Cls_inv (f : ascii -> bool) (t : string) (g : list string) :
  Matches (Cls f) t g -> exists c, t = String c "" /\ g = [] /\ f c = true.
Proof. intros M. inversion M; subst. eauto. Qed.

Lemma Matches_Lit_inv (c : ascii) (t : string) (g : list string) :
  Matches (Lit c) t g -> t = String c "" /\ g = [].
Proof. intros M. inversion M; subst. auto. Qed.

Lemma Matches_Plus_inv (f : ascii -> bool) (t : string) (g : list string) :
  Matches (Plus f) t g ->
  t <> "" /\ string_forallb f t = true /\ g = [].
Proof.
  intros M. inversion M; subst. split; [discriminate|]. split; [|reflexivity].
  simpl. apply andb_true_iff. now split.
Qed.

Lemma Matches_Star_inv (f : ascii -> bool) (t : string) (g : list string) :
  Matches (Star f) t g -> string_forallb f t = true /\ g = [].
Proof. intros M. inversion M; subst. auto. Qed.

Lemma Matches_re_feh (t : string) (g : list string) :
  Matches re_feh t g <->
  exists sg ds,
    t = "feh" ++ String sg (ds ++ "afe") /\ g = [String sg ""; ds] /\
    is_mp sg = true /\ ds <> "" /\ string_forallb is_digit ds = true.
Proof.
  unfold re_feh. split.
  - intros M.
    apply Matches_Seq_inv in M as (t1 & t2 & g1 & g2 & -> & -> & M1 & M).
    apply Matches_Str in M1 as [-> ->].
    apply Matches_Seq_inv in M as (t3 & t4 & g3 & g4 & -> & -> & M3 & M).
    apply Matches_Group_inv in M3 as (g' & -> & M3).
    apply Matches_Cls_inv in M3 as (sg & -> & -> & Hs).
    apply Matches_Seq_inv in M as (t5 & t6 & g5 & g6 & -> & -> & M5 & M6).
    apply Matches_Group_inv in M5 as (g' & -> & M5).
    apply Matches_Plus_inv in M5 as (Hn & Hd & ->).
    apply Matches_Str in M6 as [-> ->].
    exists sg, t5. repeat split; assumption.
  - intros (sg & ds & -> & -> & Hs & Hn & Hd).
    destruct ds as [|d ds]; [contradiction|].
    simpl in Hd. apply andb_true_iff in Hd as [Hd Hds].
    change ("feh" ++ String sg (String d ds ++ "afe"))
      with ("feh" ++ (String sg "" ++ (String d ds ++ "afe"))).
    change [String sg ""; String d ds]
      with ([] ++ ([String sg ""] ++ ([String d ds] ++ [])))%list.
    constructor; [now apply Matches_Str|].
    constructor; [constructor; now constructor|].
    constructor; [constructor; now constructor | now apply Matches_Str].
Qed.

Lemma span_digits (ds rest : string) :
  string_forallb is_digit ds = true ->
  (rest = "" \/ exists c r, rest = String c r /\ is_digit c = false) ->
  span is_digit (ds ++ rest) = (ds, rest).
Proof. apply span_plain. Qed.

Lemma py_float_digits (ds : string) :
  ds <> "" -> string_forallb is_digit ds = true ->
  py_float ds = Ok (inject_Z (decimal_value ds)).
Proof.
  intros Hn Hd. unfold py_float.
  rewrite <- (append_nil_r ds) at 1.
  rewrite (@span_digits ds "" Hd (or_introl eq_refl)).
  destruct ds; [contradiction | reflexivity].
Qed.

(** The sign letter and the digits at a position are determined. *)
Lemma feh_at_unique (s : string) (sg sg' : ascii) (ds ds' : string) :
  feh_at s sg ds -> feh_at s sg' ds' -> sg = sg' /\ ds = ds'.
Proof.
  intros (post & E & _ & _ & Hd) (post' & E' & _ & _ & Hd').
  rewrite E in E'. cbn [append] in E'. injection E' as Es Ed.
  split; [assumption|].
  apply (f_equal (span is_digit)) in Ed.
  rewrite !span_digits in Ed; try assumption;
    try (right; eexists; eexists; split; reflexivity).
  now injection Ed.
Qed.

Lemma feh_at_Matches (s : string) (sg : ascii) (ds : string) :
  feh_at s sg ds <->
  exists t rest, s = t ++ rest /\ Matches re_feh t [String sg ""; ds].
Proof.
  split.
  - intros (post & -> & Hs & Hn & Hd).
    exists ("feh" ++ String sg (ds ++ "afe")), post. split.
    + cbn [append]. now rewrite append_assoc.
    + apply Matches_re_feh. now exists sg, ds.
  - intros (t & rest & -> & M).
    apply Matches_re_feh in M as (sg0 & ds0 & -> & Eg & Hs & Hn & Hd).
    injection Eg as <- <-. exists rest. repeat split; try assumption.
    cbn [append]. now rewrite append_assoc.
Qed.

Lemma get_feh_of_match (filename : string) (m : match_obj) :
  re_search re_feh filename = Some m ->
  Matches re_feh (whole m) (groups m) ->
  exists sg ds,
    groups m = [String sg ""; ds] /\
    get_feh filename = Ok (Some (Qred (inject_Z (decimal_value ds) / 10 * feh_sign sg))).
Proof.
  intros E M. apply Matches_re_feh in M as (sg & ds & Hw & Hg & Hs & Hn & Hd).
  exists sg, ds. split; [assumption|].
  unfold get_feh. rewrite E. unfold group. rewrite Hg. cbn [nth].
  rewrite (py_float_digits Hn Hd). cbn [bind]. unfold feh_sign.
  cbn [String.eqb]. destruct (Ascii.eqb sg "p"); reflexivity.
Qed.

(** C4, as the code has it. [get_feh] never raises; it returns [None]
    exactly when the name has no occurrence of [feh], a sign letter [m] or
    [p], one digit or more, and [afe]; otherwise it returns the number the
    digits of the leftmost occurrence denote, divided by ten, positive for
    [p] and negative for [m]. *)
Theorem get_feh_pattern (filename : string) :
  (exists r, get_feh filename = Ok r) /\
  (get_feh filename = Ok None <-> ~ has_feh filename) /\
  (forall v, get_feh filename = Ok (Some v) ->
     exists pre s sg ds,
       filename = pre ++ s /\ feh_at s sg ds /\
       v = Qred (inject_Z (decimal_value ds) / 10 * feh_sign sg) /\
       forall pre1 pre2 sg' ds',
         pre = pre1 ++ pre2 -> pre2 <> "" -> ~ feh_at (pre2 ++ s) sg' ds').
Proof.
  destruct (re_search re_feh filename) as [m|] eqn:E.
  - destruct (re_search_leftmost _ _ E) as (pre & rest & Hf & M & L).
    destruct (get_feh_of_match _ E M) as (sg & ds & Hg & G).
    assert (At : feh_at (whole m ++ rest) sg ds).
    { apply feh_at_Matches. exists (whole m), rest. split; [reflexivity|].
      now rewrite <- Hg. }
    split; [eauto|]. split.
    + rewrite G. split; [discriminate|]. intros Hn. exfalso. apply Hn.
      now exists pre, (whole m ++ rest), sg, ds.
    + intros v Hv. rewrite G in Hv. injection Hv as <-.
      exists pre, (whole m ++ rest), sg, ds. repeat split; try assumption.
      intros pre1 pre2 sg' ds' Hp Hn At'.
      apply feh_at_Matches in At' as (t & rest' & Ht & M').
      exact (L _ _ _ _ _ Hp Hn Ht M').
  - assert (G : get_feh filename = Ok None) by (unfold get_feh; now rewrite E).
    split; [eauto|]. split.
    + split; [|intros _; exact G]. intros _ (pre & s & sg & ds & -> & At).
      apply feh_at_Matches in At as (t & rest & -> & M).
      destruct (re_search_complete rest M pre) as [m E']. congruence.
    + intros v Hv. congruence.
Qed.

(** C4, as the specification has it, fails on both sides: a magnitude of
    one digit is read, and two digits that [afe] does not follow are
    not. *)
Lemma get_feh_is_not_two_digits :
  get_feh "fehm5afep0.UBVRIJHKsKp" = Ok (Some (- (1 # 2))%Q) /\
  get_feh_two_digits "fehm5afep0.UBVRIJHKsKp" = Ok None /\
  get_feh "fehp05.UBVRIJHKsKp" = Ok None /\
  get_feh_two_digits "fehp05.UBVRIJHKsKp" = Ok (Some (1 # 2)%Q).
Proof. repeat split; reflexivity. Qed.

Example get_feh_dartmouth_names :
  get_feh "fehm05afep0.UBVRIJHKsKp" = Ok (Some (- (1 # 2))%Q) /\
  get_feh "fehp02afep0.SDSSugriz" = Ok (Some (1 # 5)%Q) /\
  get_feh "fehm25afep0.WISE_2" = Ok (Some (- (5 # 2))%Q) /\
  get_feh "isochrone.dat" = Ok None.
Proof. repeat split; reflexivity. Qed.

(** ** Ages of the rows of a track file *)

Lemma Matches_re_age (t : string) (g : list string) :
  Matches re_age t g ->
  exists d1 d2,
    g = [d1 ++ String "." d2] /\
    d1 <> "" /\ string_forallb is_digit d1 = true /\
    d2 <> "" /\ string_forallb is_digit d2 = true.
Proof.
  unfold re_age. intros M.
  apply Matches_Seq_inv in M as (t1 & t2 & g1 & g2 & -> & -> & M1 & M).
  apply Matches_Str in M1 as [-> ->].
  apply Matches_Seq_inv in M as (t3 & t4 & g3 & g4 & -> & -> & M3 & M).
  apply Matches_Star_inv in M3 as [_ ->].
  apply Matches_Seq_inv in M as (t5 & t6 & g5 & g6 & -> & -> & M5 & M6).
  apply Matches_Plus_inv in M6 as (_ & _ & ->).
  apply Matches_Group_inv in M5 as (g' & -> & M5).
  apply Matches_Seq_inv in M5 as (d1 & t7 & g7 & g8 & -> & -> & M7 & M8).
  apply Matches_Plus_inv in M7 as (N1 & D1 & ->).
  apply Matches_Seq_inv in M8 as (t9 & d2 & g9 & g10 & -> & -> & M9 & M10).
  apply Matches_Lit_inv in M9 as [-> ->].
  apply Matches_Plus_inv in M10 as (N2 & D2 & ->).
  exists d1, d2. repeat split; assumption.
Qed.

Lemma py_float_decimal (d1 d2 : string) :
  string_forallb is_digit d1 = true -> string_forallb is_digit d2 = true ->
  d2 <> "" ->
  py_float (d1 ++ String "." d2) =
    Ok (Qred (decimal_value (d1 ++ d2) # Z.to_pos (10 ^ Z.of_nat (String.length d2)))).
Proof.
  intros D1 D2 N2. unfold py_float.
  rewrite (@span_digits d1 (String "." d2) D1)
    by (right; eexists; eexists; split; reflexivity).
  rewrite D2. cbn [Ascii.eqb Bool.eqb andb].
  destruct d2; [contradiction|].
  now rewrite andb_false_r.
Qed.

(** The text of the age in a marker is always a numeral [float] reads. *)
Lemma re_age_float (line : string) (m : match_obj) :
  re_match re_age line = Some m -> exists v, py_float (group m 1) = Ok v.
Proof.
  intros E. destruct (re_match_sound _ _ E) as (rest & _ & M).
  apply Matches_re_age in M as (d1 & d2 & Hg & _ & D1 & N2 & D2).
  unfold group. rewrite Hg. cbn [nth].
  rewrite (@py_float_decimal d1 d2 D1 D2 N2). eauto.
Qed.

Lemma setitem_ok (l : list Q) : forall (i : nat) (v : Q) (l' : list Q),
  setitem l i v = Ok l' ->
  nth_error l' i = Some v /\ List.length l' = List.length l /\
  forall k, k <> i -> nth_error l' k = nth_error l k.
Proof.
  induction l as [|x l IH]; intros [|i] v l' H; simpl in H; try discriminate.
  - injection H as <-. repeat split. intros [|k] Hk; [contradiction | reflexivity].
  - destruct (setitem l i v) as [l''|] eqn:E; [|discriminate].
    injection H as <-. destruct (IH _ _ _ E) as (H1 & H2 & H3).
    repeat split; simpl; [assumption | now rewrite H2 |].
    intros [|k] Hk; [reflexivity|]. apply H3. congruence.
Qed.

Lemma setitem_in_range (l : list Q) : forall (i : nat) (v : Q),
  (i < List.length l)%nat -> exists l', setitem l i v = Ok l'.
Proof.
  induction l as [|x l IH]; intros [|i] v H; simpl in *; try lia; [eauto|].
  destruct (IH i v) as [l' ->]; [lia|]. simpl. eauto.
Qed.

Lemma setitem_raises (l : list Q) : forall (i : nat) (v : Q) (e : exn),
  setitem l i v = Raise e -> e = IndexError /\ (List.length l <= i)%nat.
Proof.
  induction l as [|x l IH]; intros [|i] v e H; simpl in H; try discriminate.
  - injection H as <-. simpl. split; [reflexivity | lia].
  - injection H as <-. simpl. split; [reflexivity | lia].
  - destruct (setitem l i v) as [l''|e'] eqn:E; [discriminate|].
    injection H as <-. destruct (IH _ _ _ E). simpl. split; [assumption | lia].
Qed.

(** The three cases of the body of the loop. *)
Lemma age_step_comment (st : age_state) (line : string) :
  is_comment line = true ->
  age_step st line =
    Ok (AgeState (ages st)
          (match marker_value line with Some v => v | None => curage st end)
          (row st)).
Proof.
  unfold is_comment, marker_value, is_comment, age_step.
  destruct (re_match re_hash line) as [h|]; [intros _ | discriminate].
  destruct (re_match re_age line) as [m|] eqn:E.
  - destruct (re_age_float _ E) as [v ->]. reflexivity.
  - now destruct st.
Qed.

Lemma age_step_data (st : age_state) (line : string) :
  is_data_line line = true ->
  marker_value line = None /\
  age_step st line =
    (a <- setitem (ages st) (row st) (curage st) ;;
     Ok (AgeState a (curage st) (S (row st)))).
Proof.
  unfold is_data_line, marker_value, is_comment, has_digit, age_step.
  destruct (re_match re_hash line); [discriminate|].
  destruct (re_search re_digit line); [auto | discriminate].
Qed.

Lemma age_step_other (st : age_state) (line : string) :
  is_comment line = false -> is_data_line line = false ->
  marker_value line = None /\ age_step st line = Ok st.
Proof.
  unfold is_data_line, marker_value, is_comment, has_digit, age_step.
  destruct (re_match re_hash line); [discriminate|].
  destruct (re_search re_digit line); [discriminate | auto].
Qed.

Lemma count_data_cons (line : string) (lines : list string) :
  count_data (line :: lines) =
    ((if is_data_line line then 1 else 0) + count_data lines)%nat.
Proof. unfold count_data. simpl. now destruct (is_data_line line). Qed.

Lemma count_data_app (l1 l2 : list string) :
  count_data (l1 ++ l2) = (count_data l1 + count_data l2)%nat.
Proof. unfold count_data. now rewrite filter_app, length_app. Qed.

(** What the loop leaves: the rows before the current one are kept, the
    row of every data line holds the age that was current at the line. *)
Lemma age_loop_rows : forall (lines : list string) (st st' : age_state),
  age_loop st lines = Ok st' ->
  List.length (ages st') = List.length (ages st) /\
  row st' = (row st + count_data lines)%nat /\
  (forall k, (k < row st)%nat -> nth_error (ages st') k = nth_error (ages st) k) /\
  (forall before line after,
     lines = (before ++ line :: after)%list -> is_data_line line = true ->
     nth_error (ages st') (row st + count_data before)
       = Some (curage_after (curage st) before)).
Proof.
  induction lines as [|l lines IH]; intros st st' H; simpl in H.
  - injection H as <-. repeat split; [unfold count_data; simpl; lia|].
    intros [|] ? ? E; discriminate.
  - destruct (age_step st l) as [st1|] eqn:S1; [|discriminate]. cbn [bind] in H.
    destruct (IH _ _ H) as (HL & HR & HK & HD). clear IH.
    rewrite count_data_cons.
    destruct (is_comment l) eqn:C; [|destruct (is_data_line l) eqn:D].
    + assert (D : is_data_line l = false) by (unfold is_data_line; now rewrite C).
      rewrite (age_step_comment st l C) in S1. injection S1 as <-.
      cbn [ages curage row] in *. rewrite D.
      repeat split; [assumption | lia | assumption |].
      intros [|b before] line after E Hd; injection E as -> E.
      * congruence.
      * rewrite count_data_cons, D. cbn [curage_after]. now apply (HD _ _ _ E).
    + destruct (age_step_data st l D) as [Mv S2]. rewrite S2 in S1.
      destruct (setitem (ages st) (row st) (curage st)) as [a|] eqn:Sa; [|discriminate].
      injection S1 as <-. cbn [ages curage row] in *.
      destruct (setitem_ok _ _ _ Sa) as (A1 & A2 & A3).
      repeat split; [congruence | lia | |].
      * intros k Hk. rewrite HK by lia. apply A3. lia.
      * intros [|b before] line after E Hd; injection E as -> E.
        -- unfold count_data at 1. cbn [filter List.length]. rewrite Nat.add_0_r.
           cbn [curage_after]. rewrite HK by lia. exact A1.
        -- rewrite count_data_cons, D. cbn [curage_after]. rewrite Mv.
           replace (row st + (1 + count_data before))%nat
             with (S (row st) + count_data before)%nat by lia.
           now apply (HD _ _ _ E).
    + destruct (age_step_other st l C D) as [Mv S2]. rewrite S2 in S1.
      injection S1 as <-.
      repeat split; [assumption | lia | assumption |].
      intros [|b before] line after E Hd; injection E as -> E.
      * congruence.
      * rewrite count_data_cons, D. cbn [curage_after]. rewrite Mv.
        now apply (HD _ _ _ E).
Qed.



Lemma curage_after_last_marker (lines : list string) : forall (o : option Q) (cur : Q),
  curage_after (match o with Some v => v | None => cur end) lines
    = match last_marker o lines with Some v => v | None => cur end.
Proof.
  induction lines as [|l lines IH]; intros o cur; simpl; [reflexivity|].
  destruct (marker_value l) as [v|].
  - apply (IH (Some v)).
  - apply IH.
Qed.

Lemma curage_after_nearest (before : list string) (cur v : Q) :
  nearest_marker before = Some v -> curage_after cur before = v.
Proof.
  intros H. unfold nearest_marker in H.
  rewrite (curage_after_last_marker before None cur). now rewrite H.
Qed.


(** The loop fails only by writing past the last row, and it does so
    exactly when the file has more data lines than the table has rows. *)
Lemma age_loop_outcome : forall (lines : list string) (st : age_state),
  (row st <= List.length (ages st))%nat ->
  if (row st + count_data lines <=? List.length (ages st))%nat
  then exists st', age_loop st lines = Ok st'
  else age_loop st lines = Raise IndexError.
Proof.
  induction lines as [|l lines IH]; intros st Hr.
  - unfold count_data. simpl. rewrite Nat.add_0_r.
    apply Nat.leb_le in Hr. rewrite Hr. eauto.
  - rewrite count_data_cons. simpl.
    destruct (is_comment l) eqn:C; [|destruct (is_data_line l) eqn:D].
    + assert (D : is_data_line l = false) by (unfold is_data_line; now rewrite C).
      rewrite (age_step_comment st l C), D. cbn [bind].
      apply (IH (AgeState _ _ _)). exact Hr.
    + destruct (age_step_data st l D) as [_ ->].
      destruct (setitem (ages st) (row st) (curage st)) as [a|e] eqn:Sa; cbn [bind].
      * destruct (setitem_ok _ _ _ Sa) as (A1 & A2 & _).
        assert (Hlt : (row st < List.length a)%nat).
        { apply nth_error_Some. congruence. }
        specialize (IH (AgeState a (curage st) (S (row st)))).
        cbn [ages row] in IH. rewrite A2 in *.
        replace (row st + (1 + count_data lines))%nat
          with (S (row st) + count_data lines)%nat by lia.
        apply IH. lia.
      * destruct (setitem_raises _ _ _ Sa) as [-> Hge].
        destruct (Nat.leb_spec (row st + (1 + count_data lines)) (List.length (ages st)));
          [lia | reflexivity].
    + destruct (age_step_other st l C D) as [_ ->]. cbn [bind].
      apply IH. exact Hr.
Qed.

Lemma get_feh_returns (filename : string) : exists r, get_feh filename = Ok r.
Proof.
  unfold get_feh. destruct (re_search re_feh filename) as [m|] eqn:E; [|eauto].
  destruct (re_search_sound _ _ E) as (pre & rest & _ & M).
  destruct (get_feh_of_match _ E M) as (sg & ds & _ & G).
  unfold get_feh in G. rewrite E in G. eauto.
Qed.

Section ToDfFacts.
Variable recfromtxt : list string -> result (list (list string)).

Lemma to_df_parsed (filename : string) (lines : list string) (rec : list (list string)) :
  recfromtxt lines = Ok rec ->
  to_df recfromtxt filename lines =
    ([], st <- age_loop (AgeState (repeat 0%Q (List.length rec)) 0%Q 0) lines ;;
         feh <- get_feh filename ;;
         Ok (TrackDf rec (ages st) feh)).
Proof. intros H. unfold to_df. now rewrite H. Qed.

Lemma to_df_inv (filename : string) (lines : list string) (out : list string)
    (df : track_df) :
  to_df recfromtxt filename lines = (out, Ok df) ->
  exists st,
    age_loop (AgeState (repeat 0%Q (List.length (rec_rows df))) 0%Q 0) lines = Ok st /\
    age_column df = ages st.
Proof.
  unfold to_df. destruct (recfromtxt lines) as [rec|e].
  - intros H. injection H as _ H.
    destruct (age_loop _ lines) as [st|] eqn:L; [|discriminate]. cbn [bind] in H.
    destruct (get_feh filename) as [feh|]; [|discriminate]. cbn [bind] in H.
    injection H as <-. cbn [rec_rows age_column]. eauto.
  - destruct (format _ _); intros H; discriminate.
Qed.


End ToDfFacts.




(** With the parser of the examples, a file without rows gives the empty
    table. *)
Example to_df_empty_track :
  to_df np_recfromtxt track_name empty_track
    = ([], Ok (TrackDf [] [] (Some (- (1 # 2))%Q))).
Proof. vm_compute; reflexivity. Qed.

Lemma get_feh_pattern_witness :
  exists pre s sg ds,
    "fehm05afep0.UBVRIJHKsKp" = pre ++ s /\ feh_at s sg ds /\
    (- (1 # 2))%Q = Qred (inject_Z (decimal_value ds) / 10 * feh_sign sg) /\
    forall pre1 pre2 sg' ds',
      pre = pre1 ++ pre2 -> pre2 <> "" -> ~ feh_at (pre2 ++ s) sg' ds'.
Proof.
  apply (proj2 (proj2 (get_feh_pattern "fehm05afep0.UBVRIJHKsKp"))).
  vm_compute; reflexivity.
Defined.

(** ** Rows and data lines, with the parser of the examples

    On a file laid out as the track files are (eight lines of header, the
    line of the names, then comments, blank lines and lines of numbers
    with one field per name), the rows numpy parses are the data lines of
    the loop, in order: the age set at the index of a data line is the
    age of the row read from that line. *)

Lemma filter_no_data (l : list string) :
  (forall x, In x l -> is_data_line x = false) -> filter is_data_line l = [].
Proof.
  induction l as [|x l IH]; intros H; simpl; [reflexivity|].
  rewrite (H x) by now left. apply IH. intros y Hy. apply H. now right.
Qed.

Lemma np_rows_of_body (body : list string) :
  (forall l, In l body -> is_data_line l = has_fields l) ->
  filter (fun r => negb (Nat.eqb (List.length r) 0)) (map np_split_line body)
    = map np_split_line (filter is_data_line body).
Proof.
  induction body as [|l body IH]; intros H; simpl; [reflexivity|].
  rewrite (H l) by now left. unfold has_fields at 1.
  destruct (negb (Nat.eqb (List.length (np_split_line l)) 0)); simpl;
    rewrite IH; try reflexivity; intros y Hy; apply H; now right.
Qed.

Lemma np_recfromtxt_laid_out (header : list string) (names_line : string)
    (body : list string) :
  laid_out header names_line body ->
  np_recfromtxt (header ++ names_line :: body)
    = Ok (map np_split_line (filter is_data_line (header ++ names_line :: body))).
Proof.
  intros [HL HH HN HP HB HW]. unfold np_recfromtxt.
  rewrite skipn_app, <- HL, skipn_all, Nat.sub_diag. cbn [app skipn np_find_names].
  destruct (np_names_of names_line) as [|n names] eqn:EN; [contradiction|].
  rewrite (np_rows_of_body body HB).
  rewrite filter_app, (filter_no_data header HH). cbn [app filter]. rewrite HN.
  assert (F : forallb (fun r => Nat.eqb (List.length r) (List.length (n :: names)))
                (map np_split_line (filter is_data_line body)) = true).
  { apply forallb_forall. intros r Hr.
    apply in_map_iff in Hr as (l & <- & Hl). apply filter_In in Hl as [Hl Hd].
    apply Nat.eqb_eq. now apply HW. }
  now rewrite F.
Qed.

Lemma nth_error_filter_count (before : list string) (line : string) (after : list string) :
  is_data_line line = true ->
  nth_error (filter is_data_line (before ++ line :: after)) (count_data before)
    = Some line.
Proof.
  intros H. unfold count_data. rewrite filter_app. cbn [filter]. rewrite H.
  rewrite nth_error_app2 by apply le_n. now rewrite Nat.sub_diag.
Qed.

(** The row read from a data line and the age of its nearest marker sit
    at the same index of the table. *)
Lemma to_df_row_and_age (filename : string) (header : list string)
    (names_line : string) (body : list string) :
  laid_out header names_line body ->
  exists df,
    to_df np_recfromtxt filename (header ++ names_line :: body) = ([], Ok df) /\
    forall before line after,
      (header ++ names_line :: body = before ++ line :: after)%list ->
      is_data_line line = true ->
      nth_error (rec_rows df) (count_data before) = Some (np_split_line line) /\
      forall v, nearest_marker before = Some v ->
                nth_error (age_column df) (count_data before) = Some v.
Proof.
  intros W. set (lines := (header ++ names_line :: body)%list).
  pose proof (np_recfromtxt_laid_out W) as P. fold lines in P.
  rewrite (@to_df_parsed np_recfromtxt filename lines _ P).
  assert (Hn : List.length (map np_split_line (filter is_data_line lines))
               = count_data lines) by apply length_map.
  rewrite Hn.
  pose proof (age_loop_outcome lines
                (AgeState (repeat 0%Q (count_data lines)) 0%Q 0)) as O.
  cbn [row ages Nat.add] in O. rewrite repeat_length in O.
  specialize (O (Nat.le_0_l _)).
  rewrite Nat.leb_refl in O. destruct O as [st L].
  rewrite L. cbn [bind].
  destruct (get_feh_returns filename) as [feh ->]. cbn [bind].
  eexists. split; [reflexivity|]. cbn [rec_rows age_column].
  intros before line after E Hd. split.
  - rewrite E. rewrite nth_error_map, (@nth_error_filter_count before line after Hd).
    reflexivity.
  - intros v Hv. destruct (age_loop_rows _ _ L) as (_ & _ & _ & HD).
    cbn [row curage Nat.add] in HD. rewrite (HD _ _ _ E Hd).
    f_equal. now apply curage_after_nearest.
Qed.

Example sample_track_laid_out :
  laid_out (firstn 8 sample_track) (nth 8 sample_track "") (skipn 9 sample_track).
Proof.
  split.
  - reflexivity.
  - intros l H. vm_compute in H.
    repeat (destruct H as [<- | H]; [vm_compute; reflexivity|]). contradiction.
  - vm_compute; reflexivity.
  - vm_compute; discriminate.
  - intros l H. vm_compute in H.
    repeat (destruct H as [<- | H]; [vm_compute; reflexivity|]). contradiction.
  - intros l H. vm_compute in H.
    repeat (destruct H as [<- | H];
            [first [ intros _; vm_compute; reflexivity
                   | intros D; vm_compute in D; discriminate ] |]).
    contradiction.
Qed.

(** * Further properties *)

(** ** The greedy matcher takes the longest run *)

Lemma stops_spec (f : ascii -> bool) (rest : string) :
  stops f rest = true ->
  rest = "" \/ exists c r, rest = String c r /\ f c = false.
Proof.
  destruct rest as [|c r]; [now left|]. simpl. intros H. right.
  exists c, r. split; [reflexivity|]. now apply negb_true_iff.
Qed.

Lemma greedy_longest (A : Type) (f : ascii -> bool) (k : cont A) (rest : string) (a : A) :
  stops f rest = true ->
  forall t acc,
    string_forallb f t = true ->
    k (acc ++ t) rest [] = Some a ->
    greedy f k acc (t ++ rest) = Some a.
Proof.
  intros Hr. induction t as [|c t IH]; intros acc Ht Hk.
  - rewrite append_nil_r in Hk. cbn [append].
    destruct rest as [|c r]; simpl; [assumption|].
    simpl in Hr. apply negb_true_iff in Hr. now rewrite Hr.
  - simpl in Ht. apply andb_true_iff in Ht as [Hc Ht].
    cbn [append greedy]. rewrite Hc.
    rewrite (IH (acc ++ String c "") Ht); [reflexivity|].
    now rewrite append_assoc.
Qed.

Lemma plus_longest (A : Type) (f : ascii -> bool) (k : cont A) (t rest : string) (a : A) :
  t <> "" -> string_forallb f t = true -> stops f rest = true ->
  k t rest [] = Some a ->
  run (Plus f) (t ++ rest) k = Some a.
Proof.
  intros Hn Ht Hr Hk. destruct t as [|c t]; [contradiction|].
  simpl in Ht. apply andb_true_iff in Ht as [Hc Ht].
  cbn [append run]. rewrite Hc. now apply greedy_longest.
Qed.

(** ** Long band names *)

Lemma get_band_vars_other (b : string) :
  py_in b short_aliases = false -> get_band_vars b = get_band_regex b.
Proof.
  unfold short_aliases, py_in. rewrite !existsb_app, !orb_false_iff.
  intros (H1 & H2 & H3 & H4 & H5 & H6 & H7).
  unfold get_band_vars, py_in. rewrite H1, H2, H4, H5, H6, H7.
  cbn [existsb] in H3. rewrite orb_false_r in H3. now rewrite H3.
Qed.

(** The pattern of the long names, on a name of letters, an underscore
    and a run of letters and underscores: the groups are the two runs,
    and what follows the second run is left aside. *)
Lemma re_system_band_match (s x rest : string) :
  s <> "" -> string_forallb is_alpha s = true ->
  x <> "" -> string_forallb is_alpha_us x = true ->
  stops is_alpha_us rest = true ->
  re_match re_system_band (s ++ String "_" (x ++ rest))
    = Some (MatchObj (s ++ String "_" x) [s; x]).
Proof.
  intros Hs As Hx Ax Hr. unfold re_match, re_system_band. cbn [run].
  apply plus_longest; [assumption | assumption | reflexivity |].
  cbn [run Ascii.eqb Bool.eqb].
  apply (@plus_longest _ is_alpha_us
           (fun t _ g => Some (MatchObj (s ++ "_" ++ t) ([s] ++ [] ++ t :: g)%list))
           x rest _ Hx Ax Hr).
  reflexivity.
Qed.

Lemma Matches_re_system_band (t : string) (g : list string) :
  Matches re_system_band t g ->
  exists g1 g2,
    t = g1 ++ String "_" g2 /\ g = [g1; g2] /\
    g1 <> "" /\ string_forallb is_alpha g1 = true /\
    g2 <> "" /\ string_forallb is_alpha_us g2 = true.
Proof.
  unfold re_system_band. intros M.
  apply Matches_Seq_inv in M as (t1 & t2 & h1 & h2 & -> & -> & M1 & M).
  apply Matches_Group_inv in M1 as (g' & -> & M1).
  apply Matches_Plus_inv in M1 as (N1 & A1 & ->).
  apply Matches_Seq_inv in M as (t3 & t4 & h3 & h4 & -> & -> & M3 & M4).
  apply Matches_Lit_inv in M3 as [-> ->].
  apply Matches_Group_inv in M4 as (g' & -> & M4).
  apply Matches_Plus_inv in M4 as (N2 & A2 & ->).
  exists t1, t4. repeat split; assumption.
Qed.

(** The first group of the pattern of the long names is the run of
    letters the name starts with. *)
Lemma system_band_group1 (b : string) (m : match_obj) :
  re_match re_system_band b = Some m -> group m 1 = fst (span is_alpha b).
Proof.
  intros E. destruct (re_match_sound _ _ E) as (rest & Hb & M).
  apply Matches_re_system_band in M as (g1 & g2 & Hw & Hg & _ & A1 & _ & _).
  unfold group. rewrite Hg. cbn [nth]. rewrite Hb, Hw, append_assoc.
  cbn [append]. rewrite (@span_plain is_alpha g1 _ A1); [reflexivity|].
  right. eexists. eexists. split; reflexivity.
Qed.

Lemma re_hst_band_prefix (b : string) (m : match_obj) :
  re_match re_hst_band b = Some m -> fst (span is_alpha b) = "HST".
Proof.
  intros E. destruct (re_match_sound _ _ E) as (rest & Hb & M).
  unfold re_hst_band in M.
  apply Matches_Seq_inv in M as (t1 & t2 & h1 & h2 & Hw & _ & M1 & _).
  apply Matches_Str in M1 as [-> _].
  rewrite Hb, Hw. reflexivity.
Qed.

(** X1. Every short name of [get_band] resolves to a band that the table
    [phot_bands] lists for the system returned. *)
Theorem get_band_alias_is_listed (b : string) :
  py_in b short_aliases = true ->
  exists phot band bands,
    get_band b = Ok (phot, band) /\
    phot_bands phot = Some bands /\ In band bands.
Proof.
  intros H. apply py_in_In in H. unfold short_aliases in H. cbn [app] in H.
  repeat (destruct H as [<- | H];
          [eexists; eexists; eexists; split; [reflexivity|];
           split; [reflexivity | cbn; tauto] |]).
  contradiction.
Qed.

Lemma get_band_alias_is_listed_witness :
  exists phot band bands,
    get_band "Kepler" = Ok (phot, band) /\
    phot_bands phot = Some bands /\ In band bands.
Proof. apply (@get_band_alias_is_listed "Kepler"). reflexivity. Defined.

(** X2. A token whose leading run of letters is neither a photometric
    system without underscore, nor [UK], [UKIRT] or [HST], and which is
    no short name, is rejected with the [ValueError] that names it: so
    are the SDSS band names [get_band] itself returns. *)
Theorem get_band_unknown_prefix (b : string) :
  py_in b short_aliases = false ->
  py_in (fst (span is_alpha b))
        ["SDSSugriz"; "UBVRIJHKsKp"; "WISE"; "LSST"; "UKIDSS"; "UK"; "UKIRT"; "HST"]
    = false ->
  get_band b = Raise (cannot_resolve b).
Proof.
  intros Ha Hp. unfold get_band. rewrite (get_band_vars_other b Ha).
  unfold get_band_regex.
  destruct (re_match re_hst_band b) as [m2|] eqn:E2.
  { apply re_hst_band_prefix in E2. rewrite E2 in Hp. discriminate. }
  destruct (re_match re_system_band b) as [m|] eqn:E1; [|reflexivity].
  rewrite (system_band_group1 _ E1).
  set (L := fst (span is_alpha b)) in *.
  unfold py_in in *. cbn [existsb phot_systems] in *.
  repeat (apply orb_false_iff in Hp as [?H Hp]).
  repeat match goal with H : (L =? _) = false |- _ => rewrite H; clear H end.
  assert (HL : (L =? "HST_WFPC2") = false).
  { apply String.eqb_neq. intros E. subst L.
    destruct (re_match_sound _ _ E1) as (rest & Hb & M).
    apply Matches_re_system_band in M as (g1 & g2 & Hw & _ & _ & A1 & _ & _).
    rewrite Hb, Hw, append_assoc in E. cbn [append] in E.
    rewrite (@span_plain is_alpha g1 _ A1) in E
      by (right; eexists; eexists; split; reflexivity).
    cbn [fst] in E. subst g1. discriminate. }
  rewrite HL. reflexivity.
Qed.

Lemma get_band_unknown_prefix_witness :
  get_band "sdss_g" = Raise (cannot_resolve "sdss_g").
Proof. apply (@get_band_unknown_prefix "sdss_g"); reflexivity. Defined.

Lemma get_band_regex_long (s x rest : string) :
  s <> "" -> string_forallb is_alpha s = true ->
  x <> "" -> string_forallb is_alpha_us x = true ->
  stops is_alpha_us rest = true ->
  s <> "HST" ->
  let b := s ++ String "_" (x ++ rest) in
  get_band_regex b =
    Ok (if py_in s phot_systems then
          if s =? "LSST" then (Some s, Some b) else (Some s, Some x)
        else if py_in s ["UK"; "UKIRT"] then (Some "UKIDSS", Some x)
        else (None, None)).
Proof.
  intros Hs As Hx Ax Hr Hh b. unfold get_band_regex.
  assert (E2 : re_match re_hst_band b = None).
  { destruct (re_match re_hst_band b) as [m2|] eqn:E; [|reflexivity].
    apply re_hst_band_prefix in E. subst b.
    rewrite (@span_plain is_alpha s _ As) in E
      by (right; eexists; eexists; split; reflexivity).
    contradiction. }
  rewrite E2. subst b. rewrite (re_system_band_match rest Hs As Hx Ax Hr).
  reflexivity.
Qed.

(** X3. A long name made of a photometric system without underscore
    other than LSST, an underscore and a run of letters and underscores
    resolves to the system and the run; [UK] and [UKIRT] stand for
    UKIDSS. What follows the run (a digit, say) is dropped without
    error. *)
Theorem get_band_long_name (sys x rest : string) :
  x <> "" -> string_forallb is_alpha_us x = true ->
  stops is_alpha_us rest = true ->
  (In sys ["SDSSugriz"; "UBVRIJHKsKp"; "WISE"; "UKIDSS"] ->
   get_band (sys ++ "_" ++ x ++ rest) = Ok (sys, x)) /\
  (In sys ["UK"; "UKIRT"] ->
   get_band (sys ++ "_" ++ x ++ rest) = Ok ("UKIDSS", x)).
Proof.
  intros Hx Ax Hr.
  assert (G : forall s : string,
             s <> "" -> string_forallb is_alpha s = true -> s <> "HST" ->
             py_in (s ++ String "_" (x ++ rest)) short_aliases = false ->
             get_band (s ++ "_" ++ x ++ rest) =
               (st <- get_band_regex (s ++ String "_" (x ++ rest)) ;;
                match st with
                | (None, _) => Raise (cannot_resolve (s ++ String "_" (x ++ rest)))
                | (Some phot, Some band) => Ok (phot, band)
                | (Some _, None) => Raise (UnboundLocalError "band")
                end)).
  { intros s _ _ _ Ha. unfold get_band.
    change (s ++ "_" ++ x ++ rest) with (s ++ String "_" (x ++ rest)).
    now rewrite (get_band_vars_other _ Ha). }
  split; intros Hin; cbn [In] in Hin;
    repeat (destruct Hin as [<- | Hin];
            [rewrite G by (reflexivity || discriminate);
             rewrite (@get_band_regex_long _ x rest) by
               (assumption || reflexivity || discriminate);
             reflexivity |]);
    contradiction.
Qed.

Lemma get_band_long_name_witness :
  get_band ("WISE" ++ "_" ++ "W" ++ "1") = Ok ("WISE", "W") /\
  get_band ("UKIRT" ++ "_" ++ "K" ++ "") = Ok ("UKIDSS", "K").
Proof.
  split.
  - apply (proj1 (@get_band_long_name "WISE" "W" "1"
                    ltac:(discriminate) eq_refl eq_refl)).
    cbn; tauto.
  - apply (proj2 (@get_band_long_name "UKIRT" "K" ""
                    ltac:(discriminate) eq_refl eq_refl)).
    cbn; tauto.
Defined.

(** X4. For LSST the band returned is the whole token, whatever follows
    the run of letters and underscores. *)
Theorem get_band_lsst_keeps_token (x rest : string) :
  x <> "" -> string_forallb is_alpha_us x = true ->
  stops is_alpha_us rest = true ->
  get_band ("LSST_" ++ x ++ rest) = Ok ("LSST", "LSST_" ++ x ++ rest).
Proof.
  intros Hx Ax Hr. unfold get_band.
  change ("LSST_" ++ x ++ rest) with ("LSST" ++ String "_" (x ++ rest)).
  rewrite get_band_vars_other by reflexivity.
  rewrite (@get_band_regex_long "LSST" x rest) by
    (assumption || reflexivity || discriminate).
  reflexivity.
Qed.

Lemma get_band_lsst_keeps_token_witness :
  get_band ("LSST_" ++ "r" ++ "2") = Ok ("LSST", "LSST_" ++ "r" ++ "2").
Proof.
  apply (@get_band_lsst_keeps_token "r" "2"); [discriminate | reflexivity | reflexivity].
Defined.

Lemma re_hst_band_match (inst x rest : string) :
  inst <> "" -> string_forallb is_alnum inst = true ->
  x <> "" -> string_forallb is_alnum_us x = true ->
  stops is_alnum_us rest = true ->
  re_match re_hst_band ("HST_" ++ inst ++ String "_" (x ++ rest))
    = Some (MatchObj ("HST_" ++ inst ++ String "_" x) [inst; x]).
Proof.
  intros Hi Ai Hx Ax Hr. unfold re_match, re_hst_band.
  cbn [run Str append Ascii.eqb Bool.eqb].
  apply (@plus_longest _ is_alnum _ inst (String "_" (x ++ rest)) _ Hi Ai eq_refl).
  cbn [run Ascii.eqb Bool.eqb].
  apply (@plus_longest _ is_alnum_us
           (fun t _ g => Some (MatchObj ("H" ++ "S" ++ "T" ++ "_" ++ inst ++ "_" ++ t)
                                 ([] ++ [] ++ [] ++ [] ++ [] ++ [inst] ++ [] ++ t :: g)%list))
           x rest _ Hx Ax Hr).
  reflexivity.
Qed.

(** X5. A name [HST_<instrument>_<band>] resolves only for the
    instrument WFPC2, to the system HST_WFPC2 and the band prefixed with
    the instrument; for any other instrument it is rejected. *)
Theorem get_band_hst (inst x rest : string) :
  inst <> "" -> string_forallb is_alnum inst = true ->
  x <> "" -> string_forallb is_alnum_us x = true ->
  stops is_alnum_us rest = true ->
  get_band ("HST_" ++ inst ++ "_" ++ x ++ rest) =
    if inst =? "WFPC2" then Ok ("HST_WFPC2", "WFPC2_" ++ x)
    else Raise (cannot_resolve ("HST_" ++ inst ++ "_" ++ x ++ rest)).
Proof.
  intros Hi Ai Hx Ax Hr. unfold get_band.
  change ("HST_" ++ inst ++ "_" ++ x ++ rest)
    with ("HST_" ++ inst ++ String "_" (x ++ rest)).
  rewrite get_band_vars_other by reflexivity.
  unfold get_band_regex.
  rewrite (re_hst_band_match rest Hi Ai Hx Ax Hr).
  cbn [group nth groups].
  assert (F1 : format "HST_{}" [inst] = Ok ("HST_" ++ inst))
    by (cbn; now rewrite append_nil_r).
  assert (F2 : format "{}_{}" [inst; x] = Ok (inst ++ "_" ++ x))
    by (cbn; now rewrite append_nil_r).
  rewrite F1. cbn [bind]. rewrite F2. cbn [bind].
  destruct (inst =? "WFPC2") eqn:Ew.
  - apply String.eqb_eq in Ew. subst inst. reflexivity.
  - assert (P : py_in ("HST_" ++ inst) phot_systems = false).
    { unfold py_in, phot_systems. cbn [existsb].
      cbn [String.eqb append Ascii.eqb Bool.eqb andb].
      now rewrite Ew. }
    rewrite P.
    destruct (re_match re_system_band _) as [m|] eqn:E1; [|reflexivity].
    pose proof (system_band_group1 _ E1) as G. cbn [group] in G.
    rewrite G. reflexivity.
Qed.

Lemma get_band_hst_witness :
  get_band ("HST_" ++ "WFPC2" ++ "_" ++ "F555W" ++ "")
    = Ok ("HST_WFPC2", "WFPC2_" ++ "F555W") /\
  get_band ("HST_" ++ "ACS" ++ "_" ++ "F555W" ++ "")
    = Raise (cannot_resolve ("HST_" ++ "ACS" ++ "_" ++ "F555W" ++ "")).
Proof.
  split.
  - apply (@get_band_hst "WFPC2" "F555W" "");
      reflexivity || discriminate.
  - apply (@get_band_hst "ACS" "F555W" "");
      reflexivity || discriminate.
Defined.

(** ** Metallicity of a path *)

Lemma re_search_here (r : regex) (s : string) (m : match_obj) :
  re_match r s = Some m -> re_search r s = Some m.
Proof. intros E. destruct s; simpl; now rewrite E. Qed.

Lemma re_search_feh_skip (pre s : string) :
  string_forallb not_f pre = true ->
  re_search re_feh (pre ++ s) = re_search re_feh s.
Proof.
  induction pre as [|c pre IH]; intros H; [reflexivity|].
  simpl in H. apply andb_true_iff in H as [Hc H].
  unfold not_f in Hc. apply negb_true_iff in Hc.
  cbn [append re_search]. rewrite (IH H).
  replace (re_match re_feh (String c (pre ++ s))) with (@None match_obj);
    [reflexivity|].
  unfold re_match, re_feh. cbn [run Str]. now rewrite Hc.
Qed.

(** X6. [get_feh] reads the first occurrence of its pattern: on a path
    whose directories have no letter [f] before the file name, the
    result is the metallicity written at the start of the name, whatever
    follows. *)
Theorem get_feh_first_occurrence (pre : string) (sg : ascii) (ds post : string) :
  string_forallb not_f pre = true ->
  is_mp sg = true -> ds <> "" -> string_forallb is_digit ds = true ->
  get_feh (pre ++ "feh" ++ String sg (ds ++ "afe" ++ post))
    = Ok (Some (Qred (inject_Z (decimal_value ds) / 10 * feh_sign sg))).
Proof.
  intros Hp Hs Hn Hd.
  set (s := "feh" ++ String sg (ds ++ "afe" ++ post)).
  assert (At : feh_at s sg ds) by (exists post; auto).
  pose proof At as At'. apply feh_at_Matches in At' as (t & rest & Es & M).
  destruct (re_match_complete rest M) as [m Em]. rewrite <- Es in Em.
  assert (E : re_search re_feh (pre ++ s) = Some m).
  { rewrite (@re_search_feh_skip pre s Hp). now apply re_search_here. }
  destruct (re_match_sound _ _ Em) as (rest' & Es' & M').
  destruct (get_feh_of_match _ E M') as (sg' & ds' & Hg & G).
  assert (At2 : feh_at s sg' ds').
  { apply feh_at_Matches. exists (whole m), rest'. split; [assumption|].
    now rewrite <- Hg. }
  destruct (feh_at_unique At At2) as [<- <-]. exact G.
Qed.

Lemma get_feh_first_occurrence_witness :
  get_feh ("/data/.isochrones/dartmouth/isochrones/SDSSugriz/"
           ++ "feh" ++ String "m" ("05" ++ "afe" ++ "p0.SDSSugriz_fehp10afe"))
    = Ok (Some (Qred (inject_Z (decimal_value "05") / 10 * feh_sign "m"))).
Proof.
  apply (@get_feh_first_occurrence
           "/data/.isochrones/dartmouth/isochrones/SDSSugriz/" "m" "05"
           "p0.SDSSugriz_fehp10afe");
    reflexivity || discriminate.
Defined.

(** ** What the matcher tries first *)

Lemma picks_Lit (c : ascii) (s : string) : Picks (Lit c) (String c s) (String c "") s [].
Proof. intros A k a H. simpl. now rewrite Ascii.eqb_refl. Qed.

Lemma picks_Plus (f : ascii -> bool) (t rest : string) :
  t <> "" -> string_forallb f t = true -> stops f rest = true ->
  Picks (Plus f) (t ++ rest) t rest [].
Proof. intros Hn Ht Hr A k a H. now apply plus_longest. Qed.

Lemma picks_Star (f : ascii -> bool) (t rest : string) :
  string_forallb f t = true -> stops f rest = true ->
  Picks (Star f) (t ++ rest) t rest [].
Proof. intros Ht Hr A k a H. simpl. now apply greedy_longest. Qed.

Lemma picks_Seq (r1 r2 : regex) (s t1 s1 t2 s2 : string) (g1 g2 : list string) :
  Picks r1 s t1 s1 g1 -> Picks r2 s1 t2 s2 g2 ->
  Picks (Seq r1 r2) s (t1 ++ t2) s2 (g1 ++ g2)%list.
Proof. intros P1 P2 A k a H. simpl. apply P1. apply P2. exact H. Qed.

Lemma picks_Group (r : regex) (s t rest : string) (g : list string) :
  Picks r s t rest g -> Picks (Group r) s t rest (t :: g).
Proof. intros P A k a H. simpl. apply P. exact H. Qed.

Lemma picks_Str (x s : string) : Picks (Str x) (x ++ s) x s [].
Proof.
  induction x as [|c x IH]; simpl.
  - intros A k a H. exact H.
  - apply (@picks_Seq (Lit c) (Str x) _ (String c "") (x ++ s) x s [] []).
    + apply picks_Lit.
    + exact IH.
Qed.

Lemma picks_re_match (r : regex) (s t rest : string) (g : list string) :
  Picks r s t rest g -> re_match r s = Some (MatchObj t g).
Proof. intros P. apply P. reflexivity. Qed.

Lemma span_parts (f : ascii -> bool) (s : string) :
  s = fst (span f s) ++ snd (span f s) /\
  string_forallb f (fst (span f s)) = true /\
  stops f (snd (span f s)) = true.
Proof.
  induction s as [|c s (E & F & S)]; simpl; [auto|].
  destruct (f c) eqn:Fc.
  - destruct (span f s) as [p r]. simpl in *. rewrite Fc, F. subst. auto.
  - simpl. rewrite Fc. auto.
Qed.

Lemma digit_not_space (c : ascii) : is_digit c = true -> is_space c = false.
Proof.
  destruct c as [[] [] [] [] [] [] [] []]; intros H;
    try reflexivity; discriminate H.
Qed.

Lemma space_not_digit (c : ascii) : is_space c = true -> is_digit c = false.
Proof.
  destruct c as [[] [] [] [] [] [] [] []]; intros H;
    try reflexivity; discriminate H.
Qed.

Lemma stops_head (f g : ascii -> bool) (t rest : string) :
  t <> "" -> string_forallb g t = true ->
  (forall c, g c = true -> f c = false) ->
  stops f (t ++ rest) = true.
Proof.
  intros Hn Ht Hfg. destruct t as [|c t]; [contradiction|].
  simpl in *. apply andb_true_iff in Ht as [Hc _]. now rewrite (Hfg c Hc).
Qed.

(** ** The lines that are markers *)

Lemma string_forallb_app (f : ascii -> bool) (a b : string) :
  string_forallb f (a ++ b) = (string_forallb f a && string_forallb f b)%bool.
Proof.
  induction a as [|c a IH]; simpl; [reflexivity|].
  now rewrite IH, andb_assoc.
Qed.

Lemma picks_re_age (ws d1 d2 sp p r : string) :
  string_forallb is_space ws = true ->
  d1 <> "" -> string_forallb is_digit d1 = true ->
  d2 <> "" -> string_forallb is_digit d2 = true ->
  sp <> "" -> string_forallb is_space sp = true ->
  string_forallb is_space p = true -> stops is_space r = true ->
  Picks re_age ("#AGE=" ++ (ws ++ (d1 ++ String "." (d2 ++ ((sp ++ p) ++ r)))))
        ("#AGE=" ++ ws ++ (d1 ++ String "." d2) ++ (sp ++ p)) r
        [d1 ++ String "." d2].
Proof.
  intros Hws N1 D1 N2 D2 Ns Hsp Hp Hr.
  assert (Nsp : sp ++ p <> "") by (destruct sp; [contradiction | discriminate]).
  assert (Asp : string_forallb is_space (sp ++ p) = true)
    by (rewrite string_forallb_app, Hsp, Hp; reflexivity).
  pose proof (@picks_Plus is_space (sp ++ p) r Nsp Asp Hr) as P6.
  assert (S5 : stops is_digit ((sp ++ p) ++ r) = true).
  { apply (@stops_head is_digit is_space (sp ++ p) r Nsp Asp). exact space_not_digit. }
  pose proof (@picks_Plus is_digit d2 _ N2 D2 S5) as P5.
  pose proof (picks_Lit "." (d2 ++ (sp ++ p) ++ r)) as P4.
  pose proof (@picks_Plus is_digit d1 (String "." (d2 ++ (sp ++ p) ++ r)) N1 D1 eq_refl) as P3.
  assert (S2 : stops is_space (d1 ++ String "." (d2 ++ (sp ++ p) ++ r)) = true).
  { apply (@stops_head is_space is_digit d1 _ N1 D1). exact digit_not_space. }
  pose proof (@picks_Star is_space ws _ Hws S2) as P2.
  pose proof (picks_Str "#AGE=" (ws ++ d1 ++ String "." (d2 ++ (sp ++ p) ++ r))) as P1.
  exact (picks_Seq P1 (picks_Seq P2 (picks_Seq (picks_Group (picks_Seq P3 (picks_Seq P4 P5))) P6))).
Qed.

Lemma Matches_re_age_text (t : string) (g : list string) :
  Matches re_age t g ->
  exists ws d1 d2 sp,
    t = "#AGE=" ++ ws ++ (d1 ++ String "." d2) ++ sp /\
    g = [d1 ++ String "." d2] /\
    string_forallb is_space ws = true /\
    d1 <> "" /\ string_forallb is_digit d1 = true /\
    d2 <> "" /\ string_forallb is_digit d2 = true /\
    sp <> "" /\ string_forallb is_space sp = true.
Proof.
  unfold re_age. intros M.
  apply Matches_Seq_inv in M as (t1 & t2 & g1 & g2 & -> & -> & M1 & M).
  apply Matches_Str in M1 as [-> ->].
  apply Matches_Seq_inv in M as (ws & t4 & g3 & g4 & -> & -> & M3 & M).
  apply Matches_Star_inv in M3 as [Hws ->].
  apply Matches_Seq_inv in M as (t5 & sp & g5 & g6 & -> & -> & M5 & M6).
  apply Matches_Plus_inv in M6 as (Ns & Hsp & ->).
  apply Matches_Group_inv in M5 as (g' & -> & M5).
  apply Matches_Seq_inv in M5 as (d1 & t7 & g7 & g8 & -> & -> & M7 & M8).
  apply Matches_Plus_inv in M7 as (N1 & D1 & ->).
  apply Matches_Seq_inv in M8 as (t9 & d2 & g9 & g10 & -> & -> & M9 & M10).
  apply Matches_Lit_inv in M9 as [-> ->].
  apply Matches_Plus_inv in M10 as (N2 & D2 & ->).
  exists ws, d1, d2, sp. repeat split; assumption.
Qed.

(** The lines that carry an age, and the age they carry. *)
Lemma marker_value_iff (line : string) (v : Q) :
  marker_value line = Some v <->
  exists ws d1 d2 sp rest,
    line = marker_line ws d1 d2 sp rest /\
    string_forallb is_space ws = true /\
    d1 <> "" /\ string_forallb is_digit d1 = true /\
    d2 <> "" /\ string_forallb is_digit d2 = true /\
    sp <> "" /\ string_forallb is_space sp = true /\
    v = decimal_number d1 d2.
Proof.
  split.
  - unfold marker_value. destruct (is_comment line); [|discriminate].
    destruct (re_match re_age line) as [m|] eqn:E; [|discriminate].
    destruct (re_match_sound _ _ E) as (rest & Hl & M).
    apply Matches_re_age_text in M
      as (ws & d1 & d2 & sp & Hw & Hg & Hws & N1 & D1 & N2 & D2 & Ns & Hsp).
    unfold group. rewrite Hg. cbn [nth].
    rewrite (@py_float_decimal d1 d2 D1 D2 N2). intros H. injection H as <-.
    exists ws, d1, d2, sp, rest. repeat split; try assumption.
    rewrite Hl, Hw. unfold marker_line. cbn [append].
    now rewrite !append_assoc.
  - intros (ws & d1 & d2 & sp & rest & -> & Hws & N1 & D1 & N2 & D2 & Ns & Hsp & ->).
    destruct (span_parts is_space rest) as (Er & Hp & Hr).
    set (p := fst (span is_space rest)) in *. set (r := snd (span is_space rest)) in *.
    assert (El : marker_line ws d1 d2 sp rest
                 = "#AGE=" ++ (ws ++ (d1 ++ String "." (d2 ++ ((sp ++ p) ++ r))))).
    { unfold marker_line. rewrite Er. cbn [append].
      now rewrite !append_assoc. }
    pose proof (picks_re_match
                  (@picks_re_age ws d1 d2 sp p r Hws N1 D1 N2 D2 Ns Hsp Hp Hr)) as E.
    rewrite <- El in E.
    assert (C : is_comment (marker_line ws d1 d2 sp rest) = true) by reflexivity.
    unfold marker_value. rewrite C, E.
    unfold group. cbn [nth groups].
    rewrite (@py_float_decimal d1 d2 D1 D2 N2).
    reflexivity.
Qed.

(** X7. The loop of [to_df] takes a comment for a marker exactly when
    it reads [#AGE=], optional white space, digits, a point, digits and
    at least one white space: the current age becomes the number of the
    numeral. On any other comment (a marker without point such as
    [#AGE= 12 EEPS=3], or one that ends the file without newline) the
    step changes nothing. No comment takes a row. *)
Theorem age_step_on_comment (st : age_state) (line : string) :
  is_comment line = true ->
  (forall ws d1 d2 sp rest,
     line = marker_line ws d1 d2 sp rest ->
     string_forallb is_space ws = true ->
     d1 <> "" -> string_forallb is_digit d1 = true ->
     d2 <> "" -> string_forallb is_digit d2 = true ->
     sp <> "" -> string_forallb is_space sp = true ->
     age_step st line = Ok (AgeState (ages st) (decimal_number d1 d2) (row st))) /\
  ((forall ws d1 d2 sp rest,
      line = marker_line ws d1 d2 sp rest ->
      string_forallb is_space ws = true ->
      d1 <> "" -> string_forallb is_digit d1 = true ->
      d2 <> "" -> string_forallb is_digit d2 = true ->
      sp <> "" -> string_forallb is_space sp = true -> False) ->
   age_step st line = Ok st).
Proof.
  intros C. rewrite (age_step_comment st line C). split.
  - intros ws d1 d2 sp rest El Hws N1 D1 N2 D2 Ns Hsp.
    assert (M : marker_value line = Some (decimal_number d1 d2)).
    { apply marker_value_iff. exists ws, d1, d2, sp, rest. repeat split; assumption. }
    now rewrite M.
  - intros Hno. destruct (marker_value line) as [v|] eqn:M.
    + exfalso. apply marker_value_iff in M
        as (ws & d1 & d2 & sp & rest & El & Hws & N1 & D1 & N2 & D2 & Ns & Hsp & _).
      exact (Hno ws d1 d2 sp rest El Hws N1 D1 N2 D2 Ns Hsp).
    + now destruct st.
Qed.

Lemma age_step_on_comment_witness :
  age_step (AgeState [0; 0]%Q 0%Q 1) (marker_line " " "1" "250" " " ("EEPS=2" ++ newline))
    = Ok (AgeState [0; 0]%Q (decimal_number "1" "250") 1) /\
  age_step (AgeState [0; 0]%Q 0%Q 1) ("#AGE= 12 EEPS=3" ++ newline)
    = Ok (AgeState [0; 0]%Q 0%Q 1).
Proof.
  split.
  - apply (proj1 (@age_step_on_comment (AgeState [0; 0]%Q 0%Q 1)
                    (marker_line " " "1" "250" " " ("EEPS=2" ++ newline)) eq_refl)
             " " "1" "250" " " ("EEPS=2" ++ newline));
      reflexivity || discriminate.
  - reflexivity.
Defined.

(** ** Rows without a marker *)

Lemma age_loop_beyond : forall (lines : list string) (st st' : age_state),
  age_loop st lines = Ok st' ->
  forall k, (row st' <= k)%nat -> nth_error (ages st') k = nth_error (ages st) k.
Proof.
  induction lines as [|l lines IH]; intros st st' H k Hk; simpl in H.
  - now injection H as <-.
  - destruct (age_step st l) as [st1|] eqn:S1; [|discriminate]. cbn [bind] in H.
    rewrite (IH _ _ H k Hk).
    destruct (age_loop_rows _ _ H) as (_ & HR & _).
    destruct (is_comment l) eqn:C; [|destruct (is_data_line l) eqn:D].
    + rewrite (age_step_comment st l C) in S1. now injection S1 as <-.
    + destruct (age_step_data st l D) as [_ S2]. rewrite S2 in S1.
      destruct (setitem (ages st) (row st) (curage st)) as [a|] eqn:Sa; [|discriminate].
      injection S1 as <-. cbn [ages row] in *.
      destruct (setitem_ok _ _ _ Sa) as (_ & _ & A3). apply A3. lia.
    + destruct (age_step_other st l C D) as [_ S2]. rewrite S2 in S1.
      now injection S1 as <-.
Qed.

Lemma nth_error_repeat (A : Type) (x : A) (n k : nat) :
  (k < n)%nat -> nth_error (repeat x n) k = Some x.
Proof.
  revert k. induction n as [|n IH]; intros [|k] H; simpl; try lia; [reflexivity|].
  apply IH. lia.
Qed.

Section DefaultAge.
Variable recfromtxt : list string -> result (list (list string)).

(** X8. In the table [to_df] returns, a data line that no marker
    precedes gets the age 0, and so does every row of the parsed table
    beyond the data lines of the file. *)
Theorem to_df_default_age
    (filename : string) (lines : list string) (out : list string) (df : track_df) :
  to_df recfromtxt filename lines = (out, Ok df) ->
  (forall before line after,
     lines = (before ++ line :: after)%list ->
     is_data_line line = true ->
     nearest_marker before = None ->
     nth_error (age_column df) (count_data before) = Some 0%Q) /\
  (forall k, (count_data lines <= k < List.length (rec_rows df))%nat ->
     nth_error (age_column df) k = Some 0%Q).
Proof.
  intros H. destruct (@to_df_inv recfromtxt filename lines out df H) as (st & L & ->).
  destruct (age_loop_rows _ _ L) as (_ & HR & _ & HD).
  cbn [row curage Nat.add] in HD, HR. split.
  - intros before line after E Hd Hm. rewrite (HD _ _ _ E Hd). f_equal.
    unfold nearest_marker in Hm.
    pose proof (curage_after_last_marker before None 0%Q) as C.
    cbn beta iota in C. now rewrite Hm in C.
  - intros k [Hk1 Hk2].
    rewrite (@age_loop_beyond lines _ st L k) by lia.
    cbn [ages]. now apply nth_error_repeat.
Qed.
End DefaultAge.

Lemma to_df_default_age_witness :
  to_df np_recfromtxt track_name unmarked_track = ([], Ok unmarked_df) /\
  nth_error (age_column unmarked_df) (count_data (firstn 9 unmarked_track)) = Some 0%Q /\
  nth_error (age_column unmarked_df) 2 = Some 0%Q.
Proof.
  assert (E : to_df np_recfromtxt track_name unmarked_track = ([], Ok unmarked_df))
    by (vm_compute; reflexivity).
  destruct (@to_df_default_age np_recfromtxt track_name unmarked_track [] unmarked_df E)
    as [H1 H2].
  split; [exact E|]. split.
  - apply (H1 (firstn 9 unmarked_track) (nth 9 unmarked_track "")
              (skipn 10 unmarked_track)); vm_compute; reflexivity.
  - apply H2. vm_compute. split; [apply le_n | apply le_n].
Defined.

(** ** Columns and index of the aggregated table *)

Lemma cols_to_rename_filter (cols l : list string) :
  cols_to_rename cols = Ok l -> l = filter starts_F cols /\ ~ In "" cols.
Proof.
  revert l. induction cols as [|c cols IH]; intros l H; simpl in H.
  - injection H as <-. auto.
  - destruct c as [|x c]; [discriminate|]. cbn [starts_with_F bind] in H.
    destruct (cols_to_rename cols) as [l'|]; [|discriminate]. cbn [bind] in H.
    injection H as <-. destruct (IH l' eq_refl) as [-> Hn].
    split; [reflexivity|]. intros [E | E]; [discriminate | contradiction].
Qed.

Lemma cols_to_rename_empty (cols : list string) :
  In "" cols -> cols_to_rename cols = Raise IndexError.
Proof.
  induction cols as [|c cols IH]; intros H; [contradiction|]. simpl.
  destruct c as [|x c]; [reflexivity|]. cbn [starts_with_F bind].
  destruct H as [E | H]; [discriminate|]. now rewrite (IH H).
Qed.

Lemma assoc_combine_map (f : string -> string) (l : list string) (c : string) :
  assoc (combine l (map f l)) c = if existsb (String.eqb c) l then Some (f c) else None.
Proof.
  induction l as [|x l IH]; simpl; [reflexivity|].
  rewrite (String.eqb_sym c x). destruct (x =? c) eqn:E.
  - apply String.eqb_eq in E. now subst.
  - exact IH.
Qed.

Lemma rename_F_columns (more cols : list string) :
  filter starts_F more = [] ->
  rename_columns
    (combine (filter starts_F (more ++ cols))
             (map (fun col => "WFPC2_" ++ col) (filter starts_F (more ++ cols))))
    cols
  = map wfpc2_name cols.
Proof.
  intros Hm. rewrite filter_app, Hm. cbn [app].
  unfold rename_columns. apply map_ext_in. intros c Hc.
  rewrite assoc_combine_map.
  destruct (existsb (String.eqb c) (filter starts_F cols)) eqn:E.
  - apply existsb_exists in E as (x & Hx & Ex). apply String.eqb_eq in Ex. subst x.
    apply filter_In in Hx as [_ Hf]. destruct c as [|a c]; [discriminate|].
    simpl in Hf. simpl. now rewrite Hf.
  - destruct c as [|a c]; [reflexivity|]. simpl.
    destruct (Ascii.eqb a "F") eqn:Ea; [|reflexivity].
    exfalso. assert (Hin : In (String a c) (filter starts_F cols))
      by (apply filter_In; split; [assumption | exact Ea]).
    assert (T : existsb (String.eqb (String a c)) (filter starts_F cols) = true).
    { apply existsb_exists. exists (String a c). split; [assumption|].
      apply String.eqb_refl. }
    congruence.
Qed.

(** X9. [df_all] keeps the names of the band columns, except for the
    system HST_WFPC2, where it prefixes with [WFPC2_] the names that
    start with [F] and leaves the others: the three filters of get_band
    then carry the band names get_band returns. It fails, with
    [IndexError], only for HST_WFPC2 and a column of empty name. *)
Theorem df_all_band_columns (phot : string) (df : Grid) :
  (phot = "HST_WFPC2" /\ In "" (band_columns df) ->
   df_all phot df = Raise IndexError) /\
  (~ (phot = "HST_WFPC2" /\ In "" (band_columns df)) ->
   exists out,
     df_all phot df = Ok out /\
     band_columns out =
       (if phot =? "HST_WFPC2" then map wfpc2_name (band_columns df)
        else band_columns df) /\
     (phot = "HST_WFPC2" ->
      forall b, In b ["F555W"; "F606W"; "F814W"] -> In b (band_columns df) ->
        exists band, get_band b = Ok ("HST_WFPC2", band) /\ In band (band_columns out))).
Proof.
  unfold df_all.
  assert (P : py_in phot ["HST_WFPC2"] = (phot =? "HST_WFPC2")).
  { unfold py_in. cbn [existsb]. apply orb_false_r. }
  rewrite P. split.
  - intros [-> Hin]. cbn [String.eqb Ascii.eqb Bool.eqb andb].
    rewrite cols_to_rename_empty; [reflexivity|].
    apply in_or_app. now right.
  - intros Hn. destruct (phot =? "HST_WFPC2") eqn:E.
    + apply String.eqb_eq in E. subst phot.
      destruct (cols_to_rename (common_columns ++ band_columns df)) as [old|e] eqn:C.
      * apply cols_to_rename_filter in C as [-> _]. cbn [bind].
        eexists. split; [reflexivity|]. cbn [band_columns].
        rewrite (@rename_F_columns common_columns (band_columns df) eq_refl).
        split; [reflexivity|]. intros _ b Hb Hc. cbn [In] in Hb.
        assert (W : In (wfpc2_name b) (map wfpc2_name (band_columns df)))
          by now apply in_map.
        repeat (destruct Hb as [<- | Hb];
                [eexists; split; [reflexivity | exact W] |]).
        contradiction.
      * exfalso. apply Hn. split; [reflexivity|].
        destruct (in_dec string_dec "" (band_columns df)) as [Hi|Hi]; [assumption|].
        destruct (@cols_to_rename_ok (common_columns ++ band_columns df)) as [l El].
        { apply Forall_app. split.
          - unfold common_columns. repeat constructor; discriminate.
          - apply Forall_forall. intros c Hc Ec. subst c. contradiction. }
        congruence.
    + eexists. split; [reflexivity|]. split; [reflexivity|].
      intros ->. discriminate.
Qed.

Lemma df_all_band_columns_witness :
  exists out,
    df_all "HST_WFPC2" wfpc2_table = Ok out /\
    band_columns out =
      (if "HST_WFPC2" =? "HST_WFPC2" then map wfpc2_name (band_columns wfpc2_table)
       else band_columns wfpc2_table) /\
    ("HST_WFPC2" = "HST_WFPC2" ->
     forall b, In b ["F555W"; "F606W"; "F814W"] -> In b (band_columns wfpc2_table) ->
       exists band, get_band b = Ok ("HST_WFPC2", band) /\ In band (band_columns out)).
Proof.
  apply (proj2 (df_all_band_columns "HST_WFPC2" wfpc2_table)).
  intros [_ H]. cbn in H. repeat (destruct H as [H | H]; [discriminate|]).
  contradiction.
Defined.

Section IndexOrder.
Open Scope R_scope.

Lemma row_le_key_le (a b : grid_row) : row_le a b -> key_le (index_key a) (index_key b).
Proof.
  unfold row_le, row_leb, sort_key, key_le, index_key. cbn [lex_leb fst snd].
  unfold Rltb, Reqb.
  destruct (Rlt_dec (feh a) (feh b)); [now left|].
  destruct (Req_dec_T (feh a) (feh b)); [|discriminate].
  destruct (Rlt_dec (age a) (age b)); [intros _; right; split; lra|].
  destruct (Req_dec_T (age a) (age b)); [intros _; right; split; lra | discriminate].
Qed.

Lemma key_le_trans (x y z : R * R) : key_le x y -> key_le y z -> key_le x z.
Proof. unfold key_le. intros [H1 | [H1 H1']] [H2 | [H2 H2']]; lra. Qed.

Lemma key_le_antisym (x y : R * R) : key_le x y -> key_le y x -> x = y.
Proof.
  destruct x as [f1 a1], y as [f2 a2]. unfold key_le. cbn [fst snd].
  intros [H1 | [H1 H1']] [H2 | [H2 H2']]; try lra. f_equal; lra.
Qed.

Lemma Sorted_map_keys (l : list grid_row) :
  Sorted row_le l -> StronglySorted key_le (map index_key l).
Proof.
  intros H. apply Sorted_StronglySorted; [exact key_le_trans|].
  induction H as [|r l Hs IH Hd]; simpl; constructor; [assumption|].
  destruct Hd as [|x l Hx]; simpl; constructor. now apply row_le_key_le.
Qed.

Lemma StronglySorted_nth (l : list (R * R)) :
  StronglySorted key_le l ->
  forall i j x y, (i < j)%nat ->
    nth_error l i = Some x -> nth_error l j = Some y -> key_le x y.
Proof.
  induction 1 as [|a l Hs IH Ha]; intros i j x y Hij Hi Hj.
  - destruct i; discriminate.
  - destruct j as [|j]; [lia|]. simpl in Hj. destruct i as [|i]; simpl in Hi.
    + injection Hi as <-. rewrite Forall_forall in Ha. apply Ha.
      eapply nth_error_In. exact Hj.
    + apply (IH i j); [lia | assumption | assumption].
Qed.

(** X10. The index [df_all] sets is sorted by metallicity, then age, and
    has one key per row of the merged table; so the rows of one key (one
    isochrone) are consecutive: between two rows of the same key all
    rows have that key. *)
Theorem df_all_index_sorted (phot : string) (df out : Grid) :
  df_all phot df = Ok out ->
  exists idx,
    index out = Some idx /\
    List.length idx = List.length (rows df) /\
    StronglySorted key_le idx /\
    forall i l j k k',
      (i <= l <= j)%nat ->
      nth_error idx i = Some k -> nth_error idx j = Some k ->
      nth_error idx l = Some k' -> k' = k.
Proof.
  intros H.
  assert (E : exists cols, out = MkGrid cols (sort_values (map log_age (rows df)))
                             (Some (map index_key (sort_values (map log_age (rows df)))))).
  { unfold df_all in H. destruct (py_in phot ["HST_WFPC2"%string]).
    - destruct (cols_to_rename _); [|discriminate]. cbn [bind] in H.
      injection H as <-. eexists. reflexivity.
    - injection H as <-. eexists. reflexivity. }
  destruct E as [cols ->]. eexists. split; [reflexivity|].
  assert (S : StronglySorted key_le
                (map index_key (sort_values (map log_age (rows df)))))
    by (apply Sorted_map_keys, sort_values_sorted).
  split; [|split; [exact S|]].
  - rewrite length_map, (Permutation_length (sort_values_perm _)). apply length_map.
  - intros i l j k k' [Hil Hlj] Hi Hj Hl.
    destruct (Nat.eq_dec i l) as [->|Ni]; [congruence|].
    destruct (Nat.eq_dec l j) as [->|Nj]; [congruence|].
    apply key_le_antisym.
    + apply (StronglySorted_nth S (i := l) (j := j)); [lia | assumption | assumption].
    + apply (StronglySorted_nth S (i := i) (j := l)); [lia | assumption | assumption].
Qed.

Lemma df_all_index_sorted_witness :
  exists out idx,
    df_all "SDSSugriz" two_masses = Ok out /\
    index out = Some idx /\
    List.length idx = List.length (rows two_masses) /\
    StronglySorted key_le idx.
Proof.
  destruct (@df_all_returns "SDSSugriz" two_masses) as [cols E].
  { repeat constructor; discriminate. }
  cbv zeta in E. eexists.
  destruct (@df_all_index_sorted "SDSSugriz" two_masses _ E) as (idx & Hi & Hl & Hs & _).
  exists idx. repeat split; assumption.
Defined.

End IndexOrder.

(** ** Cache files of the grids and of the triangulation *)

Lemma hdf_filename_path (ISOCHRONES phot afe y : string) (kw : list (string * string)) :
  dict_get kw "afe" = Ok afe -> dict_get kw "y" = Ok y ->
  hdf_filename ISOCHRONES kw phot =
    Ok (os_path_join (datadir ISOCHRONES)
          (phot ++ (if afe =? "afep0" then "" else "_" ++ afe) ++ ".h5")).
Proof.
  intros A Y. unfold hdf_filename. rewrite A, Y. cbn [bind].
  destruct (afe =? "afep0"); cbn [negb]; [reflexivity|].
  now rewrite format_field.
Qed.

Lemma afe_suffix_inj (afe1 afe2 rest : string) :
  (if afe1 =? "afep0" then "" else "_" ++ afe1) ++ rest
    = (if afe2 =? "afep0" then "" else "_" ++ afe2) ++ rest ->
  afe1 = afe2.
Proof.
  intros H. apply append_inv_r in H.
  destruct (afe1 =? "afep0") eqn:E1, (afe2 =? "afep0") eqn:E2;
    try apply String.eqb_eq in E1; try apply String.eqb_eq in E2;
    subst; try reflexivity; try discriminate.
  now injection H.
Qed.

(** X11. For the photometric systems of the class, two grids that
    differ in the system or in [afe] never share the file of the
    aggregated table (while those that differ in [y] alone do). *)
Theorem hdf_filename_distinguishes_system_and_afe
    (ISOCHRONES phot1 phot2 afe1 afe2 y1 y2 : string) (kw1 kw2 : list (string * string)) :
  In phot1 phot_systems -> In phot2 phot_systems ->
  dict_get kw1 "afe" = Ok afe1 -> dict_get kw2 "afe" = Ok afe2 ->
  dict_get kw1 "y" = Ok y1 -> dict_get kw2 "y" = Ok y2 ->
  hdf_filename ISOCHRONES kw1 phot1 = hdf_filename ISOCHRONES kw2 phot2 ->
  phot1 = phot2 /\ afe1 = afe2.
Proof.
  intros P1 P2 A1 A2 Y1 Y2.
  rewrite (@hdf_filename_path ISOCHRONES phot1 afe1 y1 kw1 A1 Y1).
  rewrite (@hdf_filename_path ISOCHRONES phot2 afe2 y2 kw2 A2 Y2).
  intros H. injection H as H.
  unfold phot_systems in P1, P2. cbn [In] in P1, P2.
  repeat (destruct P1 as [<- | P1]; [|]); try contradiction;
    repeat (destruct P2 as [<- | P2]; [|]); try contradiction;
    (apply os_path_join_relative_inj in H; [|reflexivity|reflexivity]);
    cbn [append] in H;
    try discriminate H;
    repeat (injection H as H);
    (split; [reflexivity|]);
    exact (afe_suffix_inj afe1 afe2 ".h5" H).
Qed.

Lemma hdf_filename_distinguishes_system_and_afe_witness :
  hdf_filename "/data/.isochrones" [("afe", "afep2"); ("y", "")] "WISE"
    = hdf_filename "/data/.isochrones" [("afe", "afep2"); ("y", "y33")] "WISE" /\
  "WISE" = "WISE" /\ "afep2" = "afep2".
Proof.
  split; [reflexivity|].
  apply (@hdf_filename_distinguishes_system_and_afe "/data/.isochrones"
           "WISE" "WISE" "afep2" "afep2" "" "y33"
           [("afe", "afep2"); ("y", "")] [("afe", "afep2"); ("y", "y33")]);
    try reflexivity; cbn; tauto.
Defined.



(** ** The track files of a grid *)

Section GetFilenamesFacts.
Variable ISOCHRONES : string.
Variable FS : Type.
Variable path_exists : FS -> string -> bool.
Variable extract_master_tarball : FS -> result FS.
Variable extract_phot_tarball : string -> FS -> result FS.
Variable glob : FS -> string -> list string.

Lemma track_pattern_eq (phot afe y : string) :
  track_pattern ISOCHRONES phot afe y =
    Ok (datadir ISOCHRONES ++ "/isochrones/" ++ phot ++ "/*" ++ afe ++ y ++ "."
          ++ phot ++ "*").
Proof. reflexivity. Qed.

Lemma track_pattern_inj_y (phot afe y1 y2 : string) :
  track_pattern ISOCHRONES phot afe y1 = track_pattern ISOCHRONES phot afe y2 ->
  y1 = y2.
Proof.
  rewrite !track_pattern_eq. intros H. injection H as H.
  apply append_inv_l in H. apply (append_inv_l "/isochrones/") in H.
  apply append_inv_l in H. apply (append_inv_l "/*") in H.
  apply append_inv_l in H.
  change (y1 ++ "." ++ phot ++ "*" = y2 ++ "." ++ phot ++ "*") in H.
  now apply append_inv_r in H.
Qed.

(** X13. When the directory of the system is there, [get_filenames]
    extracts nothing and returns what [glob] finds for
    [<datadir>/isochrones/<phot>/*<afe><y>.<phot>*]. Two values of [y]
    give two patterns, while the aggregated tables of the two grids go
    to the same file: the choice of the track files depends on [y], the
    cache of [hdf_filename] does not. *)
Theorem get_filenames_depends_on_y
    (phot afe y1 y2 : string) (kw1 kw2 : list (string * string)) (fs : FS) :
  path_exists fs (os_path_join (os_path_join (datadir ISOCHRONES) "isochrones") phot)
    = true ->
  dict_get kw1 "afe" = Ok afe -> dict_get kw2 "afe" = Ok afe ->
  dict_get kw1 "y" = Ok y1 -> dict_get kw2 "y" = Ok y2 ->
  y1 <> y2 ->
  exists p1 p2,
    get_filenames ISOCHRONES path_exists extract_master_tarball extract_phot_tarball
      glob phot afe y1 fs = Ok (glob fs p1, fs) /\
    get_filenames ISOCHRONES path_exists extract_master_tarball extract_phot_tarball
      glob phot afe y2 fs = Ok (glob fs p2, fs) /\
    p1 = datadir ISOCHRONES ++ "/isochrones/" ++ phot ++ "/*" ++ afe ++ y1 ++ "."
           ++ phot ++ "*" /\
    p2 = datadir ISOCHRONES ++ "/isochrones/" ++ phot ++ "/*" ++ afe ++ y2 ++ "."
           ++ phot ++ "*" /\
    p1 <> p2 /\
    hdf_filename ISOCHRONES kw1 phot = hdf_filename ISOCHRONES kw2 phot.
Proof.
  intros He A1 A2 Y1 Y2 Hy.
  eexists. eexists. unfold get_filenames. rewrite He. cbn [negb bind].
  rewrite !track_pattern_eq. cbn [bind].
  split; [reflexivity|]. split; [reflexivity|].
  split; [reflexivity|]. split; [reflexivity|]. split.
  - intros E. apply Hy. apply (@track_pattern_inj_y phot afe y1 y2).
    rewrite !track_pattern_eq. now rewrite E.
  - rewrite (@hdf_filename_path ISOCHRONES phot afe y1 kw1 A1 Y1).
    now rewrite (@hdf_filename_path ISOCHRONES phot afe y2 kw2 A2 Y2).
Qed.
End GetFilenamesFacts.

Lemma get_filenames_depends_on_y_witness :
  exists p1 p2,
    get_filenames "/data/.isochrones" (fun (_ : unit) _ => true)
      (fun fs => Ok fs) (fun _ fs => Ok fs) (fun _ p => [p])
      "SDSSugriz" "afep0" "" tt = Ok ([p1], tt) /\
    get_filenames "/data/.isochrones" (fun (_ : unit) _ => true)
      (fun fs => Ok fs) (fun _ fs => Ok fs) (fun _ p => [p])
      "SDSSugriz" "afep0" "y33" tt = Ok ([p2], tt) /\
    p1 = "/data/.isochrones/dartmouth/isochrones/SDSSugriz/*afep0.SDSSugriz*" /\
    p2 = "/data/.isochrones/dartmouth/isochrones/SDSSugriz/*afep0y33.SDSSugriz*" /\
    p1 <> p2 /\
    hdf_filename "/data/.isochrones" [("afe", "afep0"); ("y", "")] "SDSSugriz"
      = hdf_filename "/data/.isochrones" [("afe", "afep0"); ("y", "y33")] "SDSSugriz".
Proof.
  apply (@get_filenames_depends_on_y "/data/.isochrones" unit (fun _ _ => true)
           (fun fs => Ok fs) (fun _ fs => Ok fs) (fun _ p => [p])
           "SDSSugriz" "afep0" "" "y33"
           [("afe", "afep0"); ("y", "")] [("afe", "afep0"); ("y", "y33")] tt);
    try reflexivity.
  discriminate.
Defined.
